(** * cube: exporting expvars to a Cube collector

    A shallow embedding of [emitter.go] (package [cube]) and the proofs of
    its specification.  The three functions of the package, [Run],
    [ExportVariables] and [ExportVariablesWithTimestamp], are written as
    functions over an explicit [World]: the command-line flags, the expvar
    registry, the log, the HTTP traffic and the clock.

    The Go standard library is outside the repository.  The parts of it the
    package calls are embedded next to it: [strconv.Quote] (the [%q] verb),
    [Time.Format] for the [ANSIC] layout, [time.ParseDuration], the expvar
    registry, and [http.Post] as an oracle held by the world. *)

From Stdlib Require Import ZArith NArith List String Ascii Bool Lia.
Import ListNotations.

Local Open Scope string_scope.
Local Open Scope Z_scope.

(* ===================================================================== *)
(** ** Bytes, digits and decimal numbers *)
(* ===================================================================== *)

Definition byte_of (c : ascii) : N := N_of_ascii c.

(** The characters that a string literal cannot hold as they are. *)
Definition dquote : ascii := Eval cbv in ascii_of_N 34.
Definition newline : ascii := Eval cbv in ascii_of_N 10.
Definition tab : ascii := Eval cbv in ascii_of_N 9.

(** [between lo c hi]: the Go test [lo <= c && c <= hi] on bytes. *)
Definition between (lo : ascii) (c : ascii) (hi : ascii) : bool :=
  (byte_of lo <=? byte_of c)%N && (byte_of c <=? byte_of hi)%N.

Definition is_digit (c : ascii) : bool := between "0" c "9".

Definition digit_val (c : ascii) : Z := Z.of_N (byte_of c) - 48.

(** The character of a decimal digit, ['0' + d]. *)
Definition digit (d : Z) : ascii := ascii_of_N (48 + Z.to_N d).

(** [lowerhex[d]] of package [strconv]. *)
Definition lowerhex (d : N) : ascii :=
  if (d <? 10)%N then ascii_of_N (48 + d) else ascii_of_N (87 + d).

(** The digits of [u], most significant first, pushed in front of [acc]. *)
Fixpoint utoa_loop (fuel : nat) (u : Z) (acc : string) : string :=
  match fuel with
  | O => acc
  | S fuel' =>
      let acc' := String (digit (u mod 10)) acc in
      if u / 10 =? 0 then acc' else utoa_loop fuel' (u / 10) acc'
  end.

(** [strconv.FormatUint(u, 10)]. *)
Definition FormatUint (u : Z) : string :=
  utoa_loop (S (Z.to_nat (Z.log2 u))) u EmptyString.

(** [strconv.FormatInt(v, 10)], also the [%d] verb. *)
Definition FormatInt (v : Z) : string :=
  if v <? 0 then "-" ++ FormatUint (- v) else FormatUint v.

Fixpoint zeros (n : nat) : string :=
  match n with
  | O => EmptyString
  | S n' => String "0" (zeros n')
  end.

(** [appendInt(b, x, width)] of package [time]: sign, then the digits
    padded with zeros to [width]. *)
Definition appendInt (x : Z) (width : nat) : string :=
  let u := FormatUint (Z.abs x) in
  (if x <? 0 then "-" else EmptyString) ++ zeros (width - String.length u) ++ u.

(** [strings.Join(elems, sep)]. *)
Fixpoint strings_Join (elems : list string) (sep : string) : string :=
  match elems with
  | [] => EmptyString
  | [e] => e
  | e :: rest => e ++ sep ++ strings_Join rest sep
  end.

(** 64-bit integers: the value of a [Z] stored in an [int64] or [uint64]. *)
Definition two63 : Z := 2 ^ 63.
Definition two64 : Z := 2 ^ 64.
Definition MaxInt64 : Z := two63 - 1.
Definition to_uint64 (x : Z) : Z := x mod two64.
Definition to_int64 (x : Z) : Z := (x + two63) mod two64 - two63.

(* ===================================================================== *)
(** ** [strconv.Quote]: the [%q] verb on a string *)
(* ===================================================================== *)

Definition RuneError : N := 65533.  (* U+FFFD *)

Definition nth_byte (s : string) (i : nat) : N :=
  match String.get i s with
  | Some c => byte_of c
  | None => 0%N
  end.

(** [utf8.DecodeRuneInString]: the first rune of [s] and its width in
    bytes.  An invalid or short encoding gives [(RuneError, 1)]. *)
Definition DecodeRuneInString (s : string) : N * nat :=
  match s with
  | EmptyString => (RuneError, 0%nat)
  | String c0 _ =>
      let s0 := byte_of c0 in
      if (s0 <? 128)%N then (s0, 1%nat)
      else
        (* first[s0]: the width and the range accepted for the second byte *)
        let info : option (nat * N * N) :=
          if (s0 <? 194)%N then None
          else if (s0 <? 224)%N then Some (2%nat, 128, 191)%N
          else if (s0 =? 224)%N then Some (3%nat, 160, 191)%N
          else if (s0 <? 237)%N then Some (3%nat, 128, 191)%N
          else if (s0 =? 237)%N then Some (3%nat, 128, 159)%N
          else if (s0 <? 240)%N then Some (3%nat, 128, 191)%N
          else if (s0 =? 240)%N then Some (4%nat, 144, 191)%N
          else if (s0 <? 244)%N then Some (4%nat, 128, 191)%N
          else if (s0 =? 244)%N then Some (4%nat, 128, 143)%N
          else None in
        match info with
        | None => (RuneError, 1%nat)
        | Some (sz, lo, hi) =>
            if (String.length s <? sz)%nat then (RuneError, 1%nat)
            else
              let s1 := nth_byte s 1 in
              if ((s1 <? lo) || (hi <? s1))%N then (RuneError, 1%nat)
              else if (sz <=? 2)%nat then
                (N.lor (N.shiftl (N.land s0 31) 6) (N.land s1 63), 2%nat)
              else
                let s2 := nth_byte s 2 in
                if ((s2 <? 128) || (191 <? s2))%N then (RuneError, 1%nat)
                else if (sz <=? 3)%nat then
                  (N.lor (N.lor (N.shiftl (N.land s0 15) 12)
                                (N.shiftl (N.land s1 63) 6))
                         (N.land s2 63), 3%nat)
                else
                  let s3 := nth_byte s 3 in
                  if ((s3 <? 128) || (191 <? s3))%N then (RuneError, 1%nat)
                  else
                    (N.lor (N.lor (N.lor (N.shiftl (N.land s0 7) 18)
                                         (N.shiftl (N.land s1 63) 12))
                                  (N.shiftl (N.land s2 63) 6))
                           (N.land s3 63), 4%nat)
        end
  end.

(** The slice [s[:n]]. *)
Fixpoint first_bytes (n : nat) (s : string) : string :=
  match n with
  | O => EmptyString
  | S n' =>
      match s with
      | EmptyString => EmptyString
      | String c rest => String c (first_bytes n' rest)
      end
  end.

(** [n] hexadecimal digits of [r], most significant first. *)
Fixpoint hex_digits (n : nat) (r : N) : string :=
  match n with
  | O => EmptyString
  | S n' =>
      String (lowerhex (N.land (N.shiftr r (4 * N.of_nat n')) 15))
             (hex_digits n' r)
  end.

Section Quote.

(** [strconv.IsPrint] decides runes above U+00FF with the Unicode tables
    [isPrint16], [isNotPrint16], [isPrint32] and [isNotPrint32]; the
    tables are not reproduced and their verdict is a parameter. *)
Variable isPrint_tables : N -> bool.

(** [strconv.IsPrint]. *)
Definition IsPrint (r : N) : bool :=
  if (r <=? 255)%N then
    if ((32 <=? r) && (r <? 127))%N then true
    else if ((161 <=? r) && (r <=? 255))%N then negb (r =? 173)%N
    else false
  else isPrint_tables r.

(** [appendEscapedRune] for the double quote, neither ASCII-only nor
    graphic-only.  [enc] is the UTF-8
    encoding of [r]: for a rune that was decoded from the string these are
    the bytes it was decoded from. *)
Definition appendEscapedRune (r : N) (enc : string) : string :=
  if ((r =? 34) || (r =? 92))%N then String "\" enc
  else if IsPrint r then enc
  else if (r =? 7)%N then "\a"
  else if (r =? 8)%N then "\b"
  else if (r =? 12)%N then "\f"
  else if (r =? 10)%N then "\n"
  else if (r =? 13)%N then "\r"
  else if (r =? 9)%N then "\t"
  else if (r =? 11)%N then "\v"
  else if ((r <? 32) || (r =? 127))%N then "\x" ++ hex_digits 2 r
  else if (r <? 65536)%N then "\u" ++ hex_digits 4 r
  else "\U" ++ hex_digits 8 r.

(** The loop of [appendQuotedWith]: [skip] counts the bytes of the
    current rune that are still to be stepped over. *)
Fixpoint quote_loop (skip : nat) (s : string) : string :=
  match s with
  | EmptyString => EmptyString
  | String c rest =>
      match skip with
      | S skip' => quote_loop skip' rest
      | O =>
          let (r, width) :=
            if (byte_of c <? 128)%N then (byte_of c, 1%nat)
            else DecodeRuneInString s in
          (if ((width =? 1)%nat && (r =? RuneError)%N)%bool
           then "\x" ++ hex_digits 2 (byte_of c)
           else appendEscapedRune r (first_bytes width s))
          ++ quote_loop (width - 1) rest
      end
  end.

(** [strconv.Quote(s)], what [fmt.Sprintf("%q", s)] prints. *)
Definition Quote (s : string) : string :=
  String dquote (quote_loop 0 s ++ String dquote EmptyString).

End Quote.

(** The text that [Quote] writes between the two quotes. *)
Definition quoted_text (isPrint_tables : N -> bool) (s : string) : string :=
  quote_loop isPrint_tables 0 s.

(* ===================================================================== *)
(** ** [time.Time] and the [ANSIC] layout *)
(* ===================================================================== *)

(** A [time.Time]: an instant (seconds and nanoseconds since the Unix
    epoch, UTC) together with its location.  Of the location only the
    offset in force at that instant is kept (seconds east of UTC), which is
    all [Format] asks of it. *)
Record Time : Type := mkTime {
  unixSec : Z;
  nsec : Z;
  zoneOffset : Z
}.

(** [t.Equal(u)]: the same instant, whatever the locations. *)
Definition Time_Equal (t u : Time) : bool :=
  (unixSec t =? unixSec u) && (nsec t =? nsec u).

(** [longDayNames] and [longMonthNames] of package [time]. *)
Definition longDayNames : list string :=
  ["Sunday"; "Monday"; "Tuesday"; "Wednesday"; "Thursday"; "Friday";
   "Saturday"].

Definition longMonthNames : list string :=
  ["January"; "February"; "March"; "April"; "May"; "June"; "July";
   "August"; "September"; "October"; "November"; "December"].

(** The wall clock of [t] in its location, in seconds since the epoch. *)
Definition wall_seconds (t : Time) : Z := unixSec t + zoneOffset t.

Definition wall_days (t : Time) : Z := wall_seconds t / 86400.

(** [t.Weekday()], Sunday = 0.  The first of January 1970 was a Thursday. *)
Definition Weekday (t : Time) : Z := (wall_days t + 4) mod 7.

Definition Hour (t : Time) : Z := (wall_seconds t mod 86400) / 3600.
Definition Minute (t : Time) : Z := (wall_seconds t mod 3600) / 60.
Definition Second (t : Time) : Z := wall_seconds t mod 60.

(** [t.Date()]: year, month (January = 1) and day of the proleptic
    Gregorian calendar, counted in eras of 400 years that start on the
    first of March. *)
Definition civil_from_days (days : Z) : Z * Z * Z :=
  let z := days + 719468 in
  let era := z / 146097 in
  let doe := z - era * 146097 in
  let yoe := (doe - doe / 1460 + doe / 36524 - doe / 146096) / 365 in
  let doy := doe - (365 * yoe + yoe / 4 - yoe / 100) in
  let mp := (5 * doy + 2) / 153 in
  let d := doy - (153 * mp + 2) / 5 + 1 in
  let m := if mp <? 10 then mp + 3 else mp - 9 in
  let y := yoe + era * 400 + (if m <=? 2 then 1 else 0) in
  (y, m, d).

Definition Year (t : Time) : Z := fst (fst (civil_from_days (wall_days t))).
Definition Month (t : Time) : Z := snd (fst (civil_from_days (wall_days t))).
Definition Day (t : Time) : Z := snd (civil_from_days (wall_days t)).

(** The first three letters of a name of a table: [name.String()[:3]]. *)
Definition short_name (table : list string) (i : Z) : string :=
  first_bytes 3 (nth (Z.to_nat i) table EmptyString).

(** [stdUnderDay]: the day of the month in two columns. *)
Definition under_day (d : Z) : string :=
  (if d <? 10 then " " else EmptyString) ++ appendInt d 0.

(** [t.Format(time.ANSIC)], the layout [Mon Jan _2 15:04:05 2006]:
    [stdWeekDay], [stdMonth], [stdUnderDay], [stdHour], [stdZeroMinute],
    [stdZeroSecond] and [stdLongYear], with the layout's separators. *)
Definition Format_ANSIC (t : Time) : string :=
  short_name longDayNames (Weekday t) ++ " " ++
  short_name longMonthNames (Month t - 1) ++ " " ++
  under_day (Day t) ++ " " ++
  appendInt (Hour t) 2 ++ ":" ++
  appendInt (Minute t) 2 ++ ":" ++
  appendInt (Second t) 2 ++ " " ++
  appendInt (Year t) 4.

(* ===================================================================== *)
(** ** Go errors *)
(* ===================================================================== *)

(** The [error] values that reach the package: the three errors of
    [time.ParseDuration], and the [url.Error] in which [http.Post] wraps
    every failure (operation, URL and underlying cause). *)
Inductive error : Type :=
| time_invalid_duration (orig : string)
| time_missing_unit (orig : string)
| time_unknown_unit (unit orig : string)
| url_Error (Op URL Err : string).

(* ===================================================================== *)
(** ** [time.ParseDuration] *)
(* ===================================================================== *)

(** [leadingInt]: the leading digits of [s] as a [uint64], and the rest;
    [None] is [errLeadingInt] (overflow).  The guard [x > 1<<63/10] keeps
    [x*10 + 9] below [2^64], so the sum does not wrap. *)
Fixpoint leadingInt_loop (s : string) (x : Z) : option (Z * string) :=
  match s with
  | EmptyString => Some (x, EmptyString)
  | String c rest =>
      if negb (is_digit c) then Some (x, s)
      else if x >? two63 / 10 then None
      else
        let x' := x * 10 + digit_val c in
        if x' >? two63 then None else leadingInt_loop rest x'
  end.

Definition leadingInt (s : string) : option (Z * string) :=
  leadingInt_loop s 0.

(** [leadingFraction]: the digits after the point as an integer [x] and the
    power of ten [scale] they are over; digits past the overflow are
    skipped.  [scale] is a [float64] in Go; it stays at most [10^19], which
    a [float64] holds exactly. *)
Fixpoint leadingFraction_loop (s : string) (x scale : Z) (overflow : bool)
  : Z * Z * string :=
  match s with
  | EmptyString => (x, scale, EmptyString)
  | String c rest =>
      if negb (is_digit c) then (x, scale, s)
      else if overflow then leadingFraction_loop rest x scale true
      else if x >? MaxInt64 / 10 then leadingFraction_loop rest x scale true
      else
        let y := x * 10 + digit_val c in
        if y >? two63 then leadingFraction_loop rest x scale true
        else leadingFraction_loop rest y (scale * 10) false
  end.

Definition leadingFraction (s : string) : Z * Z * string :=
  leadingFraction_loop s 0 1 false.

(** The unit of a term: the bytes up to the next point or digit. *)
Fixpoint unit_span (s : string) : string * string :=
  match s with
  | EmptyString => (EmptyString, EmptyString)
  | String c rest =>
      if (Ascii.eqb c ".") || is_digit c then (EmptyString, s)
      else let (u, r) := unit_span rest in (String c u, r)
  end.

(** The micro sign U+00B5 and the Greek letter mu U+03BC, in UTF-8. *)
Definition micro_s : string :=
  String (ascii_of_N 194) (String (ascii_of_N 181) "s").
Definition mu_s : string :=
  String (ascii_of_N 206) (String (ascii_of_N 188) "s").

(** [unitMap], in nanoseconds. *)
Definition unitMap (u : string) : option Z :=
  if String.eqb u "ns" then Some 1
  else if String.eqb u "us" then Some 1000
  else if String.eqb u micro_s then Some 1000
  else if String.eqb u mu_s then Some 1000
  else if String.eqb u "ms" then Some 1000000
  else if String.eqb u "s" then Some 1000000000
  else if String.eqb u "m" then Some 60000000000
  else if String.eqb u "h" then Some 3600000000000
  else None.

Section ParseDuration.

(** The one floating-point step of [ParseDuration],
    [uint64(float64(f) * (float64(unit) / scale))]: the nanoseconds of
    the fraction [f/scale] of a unit.  Its rounding is not reproduced; it
    is a parameter, applied to [f], [unit] and [scale]. *)
Variable float_fraction : Z -> Z -> Z -> Z.

(** The loop [for s != ""] of [ParseDuration]: one term, a number and its
    unit, per round; [d] is the sum so far, a [uint64].  [orig] is the
    whole string, for the error. *)
Fixpoint ParseDuration_loop (fuel : nat) (orig s : string) (d : Z)
  : Z + error :=
  match s with
  | EmptyString => inl d
  | String c0 _ =>
      match fuel with
      | O => inr (time_invalid_duration orig)
      | S fuel' =>
          if negb ((Ascii.eqb c0 ".") || is_digit c0)
          then inr (time_invalid_duration orig)
          else
            match leadingInt s with
            | None => inr (time_invalid_duration orig)
            | Some (v, s1) =>
                let pre := negb (String.length s =? String.length s1)%nat in
                let '(f, scale, s2, post) :=
                  match s1 with
                  | String "." s1' =>
                      let '(f, scale, s2) := leadingFraction s1' in
                      (f, scale, s2,
                       negb (String.length s1' =? String.length s2)%nat)
                  | _ => (0, 1, s1, false)
                  end in
                if negb pre && negb post
                then inr (time_invalid_duration orig)
                else
                  let (u, s3) := unit_span s2 in
                  if String.eqb u EmptyString
                  then inr (time_missing_unit orig)
                  else
                    match unitMap u with
                    | None => inr (time_unknown_unit u orig)
                    | Some unit =>
                        if v >? two63 / unit
                        then inr (time_invalid_duration orig)
                        else
                          let v1 := v * unit in
                          let v2 :=
                            if f >? 0
                            then to_uint64 (v1 + float_fraction f unit scale)
                            else v1 in
                          if (f >? 0) && (v2 >? two63)
                          then inr (time_invalid_duration orig)
                          else
                            let d' := to_uint64 (d + v2) in
                            if d' >? two63
                            then inr (time_invalid_duration orig)
                            else ParseDuration_loop fuel' orig s3 d'
                    end
            end
      end
  end.

(** [time.ParseDuration(s)]: a [Duration] in nanoseconds, or an error. *)
Definition ParseDuration (orig : string) : Z + error :=
  let (neg, s) :=
    match orig with
    | String "-" s' => (true, s')
    | String "+" s' => (false, s')
    | _ => (false, orig)
    end in
  if String.eqb s "0" then inl 0
  else if String.eqb s EmptyString then inr (time_invalid_duration orig)
  else
    match ParseDuration_loop (String.length s) orig s 0 with
    | inr e => inr e
    | inl d =>
        if neg then inl (to_int64 (- to_int64 d))
        else if d >? MaxInt64 then inr (time_invalid_duration orig)
        else inl d
    end.

End ParseDuration.

(* ===================================================================== *)
(** ** The world of the process *)
(* ===================================================================== *)

(** An exported variable, by what its [String] method prints: an
    [expvar.Int] holds an [int64]; any other [expvar.Var] (a [String],
    [Float], [Map] or [Func], or a type of the host program) is its present
    text. *)
Inductive Var : Type :=
| Var_Int (v : Z)
| Var_Other (text : string).

Definition Var_String (v : Var) : string :=
  match v with
  | Var_Int n => FormatInt n
  | Var_Other text => text
  end.

(** An argument of a [log.Printf] call. *)
Inductive LogArg : Type :=
| A_string (s : string)
| A_error (e : error)
| A_Duration (d : Z)
| A_Time (t : Time).

(** One call of the standard logger: the format and its arguments.  The
    text of [%v] for a duration or a time is left to the logger. *)
Record LogEntry : Type := mkLogEntry {
  log_format : string;
  log_args : list LogArg
}.

(** One [http.Post] call. *)
Record Request : Type := mkRequest {
  req_url : string;
  req_contentType : string;
  req_body : string
}.

(** What [http.Post] returns: a response, whose status code is all that is
    kept of it, or an error. *)
Inductive PostResult : Type :=
| Response (StatusCode : Z)
| PostError (err : error).

Record World : Type := mkWorld {
  (** the four flags, as [flag.Parse] left them *)
  flagCollectorHost : string;
  flagCollectorPort : Z;
  flagExportInterval : string;
  flagExportToCube : bool;
  (** the expvar registry, in the order [expvar.Do] visits it *)
  vars : list (string * Var);
  (** the calls of the standard logger, oldest first *)
  logged : list LogEntry;
  (** the calls of [http.Post], oldest first *)
  posts : list Request;
  (** the outcome of a call of [http.Post], given the calls before it:
      the response that [http.Post] returns, or its error *)
  collector : list Request -> Request -> PostResult;
  (** response bodies that were received and not closed *)
  open_bodies : nat;
  (** what [time.Now] reads *)
  clock : Time
}.

Definition set_vars (vs : list (string * Var)) (w : World) : World :=
  mkWorld (flagCollectorHost w) (flagCollectorPort w) (flagExportInterval w)
          (flagExportToCube w) vs (logged w) (posts w) (collector w)
          (open_bodies w) (clock w).

Definition set_logged (l : list LogEntry) (w : World) : World :=
  mkWorld (flagCollectorHost w) (flagCollectorPort w) (flagExportInterval w)
          (flagExportToCube w) (vars w) l (posts w) (collector w)
          (open_bodies w) (clock w).

Definition set_traffic (ps : list Request) (open : nat) (w : World) : World :=
  mkWorld (flagCollectorHost w) (flagCollectorPort w) (flagExportInterval w)
          (flagExportToCube w) (vars w) (logged w) ps (collector w)
          open (clock w).

(** [log.Printf(format, args...)]. *)
Definition log_Printf (format : string) (args : list LogArg) (w : World)
  : World :=
  set_logged (logged w ++ [mkLogEntry format args]) w.

(** [time.Now()]. *)
Definition time_Now (w : World) : Time := clock w.

(** [http.Post(url, contentType, body)]: the call is recorded and its
    outcome is the one that [collector] gives; a response leaves its body
    open.  What [http.Post] does to come to that outcome (the parsing of
    the URL, the connection, the redirects that it follows) is inside
    [collector]. *)
Definition http_Post (url contentType body : string) (w : World)
  : PostResult * World :=
  let r := mkRequest url contentType body in
  let result := collector w (posts w) r in
  (result,
   set_traffic (posts w ++ [r])
               (match result with
                | Response _ => S (open_bodies w)
                | PostError _ => open_bodies w
                end) w).

(** [response.Body.Close()]. *)
Definition Body_Close (w : World) : World :=
  set_traffic (posts w) (pred (open_bodies w)) w.

(* ===================================================================== *)
(** ** Package [expvar] *)
(* ===================================================================== *)

Definition registry : Type := list (string * Var).

Fixpoint expvar_Get (name : string) (vs : registry) : option Var :=
  match vs with
  | [] => None
  | (k, v) :: rest => if String.eqb k name then Some v else expvar_Get name rest
  end.

(** The registry keeps its keys sorted: a new key goes before the first
    greater one. *)
Fixpoint insert_sorted (name : string) (v : Var) (vs : registry) : registry :=
  match vs with
  | [] => [(name, v)]
  | (k, v') :: rest =>
      if String.ltb name k then (name, v) :: vs
      else (k, v') :: insert_sorted name v rest
  end.

(** [expvar.Publish(name, v)]: [None] is the panic on a name that is
    already exported. *)
Definition expvar_Publish (name : string) (v : Var) (vs : registry)
  : option registry :=
  match expvar_Get name vs with
  | Some _ => None
  | None => Some (insert_sorted name v vs)
  end.

(** [expvar.NewInt(name)]: a new [Int], zero, published under [name]. *)
Definition expvar_NewInt (name : string) (vs : registry) : option registry :=
  expvar_Publish name (Var_Int 0) vs.

(** [Int.Add(delta)] on the variable exported as [name]:
    [atomic.AddInt64], which wraps around. *)
Fixpoint Int_Add (name : string) (delta : Z) (vs : registry) : registry :=
  match vs with
  | [] => []
  | (k, v) :: rest =>
      if String.eqb k name then
        match v with
        | Var_Int n => (k, Var_Int (to_int64 (n + delta))) :: rest
        | Var_Other _ => (k, v) :: rest
        end
      else (k, v) :: Int_Add name delta rest
  end.

(** [expvar.Do(f)]: [f] on every exported variable, in the order of the
    keys; here [f] appends to a slice, which [Do] returns. *)
Definition expvar_Do {A : Type} (f : string * Var -> A) (vs : registry)
  : list A :=
  map f vs.

(* ===================================================================== *)
(** ** Package [cube] *)
(* ===================================================================== *)

Section Cube.

Variable isPrint_tables : N -> bool.
Variable float_fraction : Z -> Z -> Z -> Z.

(** [fmt.Sprintf("%q: %s", entry.Key, entry.Value)]. *)
Definition format_variable (entry : string * Var) : string :=
  Quote isPrint_tables (fst entry) ++ ": " ++ Var_String (snd entry).

Definition nl : string := String newline EmptyString.
Definition tabs2 : string := String tab (String tab EmptyString).
Definition tabs3 : string := String tab tabs2.
Definition q : string := String dquote EmptyString.

(** The [fmt.Sprintf] of the request: the raw string literal with its
    three [%s] verbs, line by line (the lines of the literal are indented
    with tabs in the source). *)
Definition format_request (collectionType time data : string) : string :=
  "[" ++ nl ++
  tabs2 ++ "{" ++ nl ++
  tabs3 ++ q ++ "type" ++ q ++ ": " ++ q ++ collectionType ++ q ++ "," ++ nl ++
  tabs3 ++ q ++ "time" ++ q ++ ": " ++ q ++ time ++ q ++ "," ++ nl ++
  tabs3 ++ q ++ "data" ++ q ++ ": { " ++ data ++ " }" ++ nl ++
  tabs2 ++ "}" ++ nl ++
  tabs2 ++ "]".

(** The request that [ExportVariablesWithTimestamp] builds from the
    registry (lines 97 to 111). *)
Definition build_request (collectionType : string) (timestamp : Time)
           (vs : registry) : string :=
  let variables := expvar_Do format_variable vs in
  format_request collectionType (Format_ANSIC timestamp)
                 (strings_Join variables ",").

(** The text between the braces of [data], as [build_request] makes it:
    the variables, with commas between them. *)
Definition data_text (vs : registry) : string :=
  strings_Join (expvar_Do format_variable vs) ",".

(** The POST and the handling of its result (lines 113 to 120): the
    Transport of the specification. *)
Definition send (putUrl request : string) (w : World)
  : option error * World :=
  let (result, w1) := http_Post putUrl "application/json" request w in
  match result with
  | PostError err =>
      let w2 := log_Printf "Error POSTing events to Cube collector: %v"
                           [A_error err] w1 in
      let w3 := log_Printf "The request we tried to post: %v"
                           [A_string request] w2 in
      (Some err, w3)
  | Response _ =>
      (* defer response.Body.Close() *)
      (None, Body_Close w1)
  end.

(** [ExportVariablesWithTimestamp]: [None] is the [nil] error. *)
Definition ExportVariablesWithTimestamp
           (collectionType putUrl : string) (timestamp : Time) (w : World)
  : option error * World :=
  let request := build_request collectionType timestamp (vars w) in
  send putUrl request w.

(** [ExportVariables]. *)
Definition ExportVariables (collectionType putUrl : string) (w : World)
  : option error * World :=
  ExportVariablesWithTimestamp collectionType putUrl (time_Now w) w.

(** The single export as the specification words it: the export with the
    timestamp, given the time the system clock shows at the call. *)
Definition ExportVariables_spec (collectionType putUrl : string) (w : World)
  : option error * World :=
  let t := clock w in
  ExportVariablesWithTimestamp collectionType putUrl t w.

(** How a call of [Run] ends. *)
Inductive RunOutcome : Type :=
| Returned                (* the [return] of line 61 *)
| Exited (code : Z)       (* [log.Fatalf]: [os.Exit(1)] *)
| Panicked                (* [expvar.NewInt] on a name in use *)
| Looping.                (* in the [for ... range], which has no exit *)

(** [time.Tick(d)]: the channel of the ticks; for [d <= 0] it is [nil],
    on which the [range] blocks for ever.  [ticks] are the times the
    ticker delivers. *)
Definition time_Tick (d : Z) (ticks : list Time) : list Time :=
  if d <=? 0 then [] else ticks.

(** The body of the loop of [Run] (lines 75 to 78). *)
Definition Run_tick (collectionType putUrl : string) (now : Time)
           (w : World) : World :=
  let (err, w1) := ExportVariablesWithTimestamp collectionType putUrl now w in
  let w2 :=
    match err with
    | Some _ => log_Printf "Error exporting variables for %v" [A_Time now] w1
    | None => w1
    end in
  set_vars (Int_Add "CubeExports" 1 (vars w2)) w2.

(** The loop of [Run] over the ticks received so far. *)
Fixpoint Run_loop (collectionType putUrl : string) (ticks : list Time)
         (w : World) : World :=
  match ticks with
  | [] => w
  | now :: later =>
      Run_loop collectionType putUrl later
               (Run_tick collectionType putUrl now w)
  end.

(** [Run].  The loop does not end; [ticks] are the ticks that the ticker
    has delivered when the world is looked at. *)
Definition Run (collectionType : string) (ticks : list Time) (w : World)
  : RunOutcome * World :=
  if negb (flagExportToCube w) then (Returned, w)
  else
    let putUrl :=
      "http://" ++ flagCollectorHost w ++ ":" ++
      FormatInt (flagCollectorPort w) ++ "/1.0/event/put" in
    let w1 := log_Printf "Exporting expvars to %s with event type %s"
                         [A_string putUrl; A_string collectionType] w in
    match ParseDuration float_fraction (flagExportInterval w1) with
    | inr err =>
        (Exited 1,
         log_Printf "Error parsing duration %v: %v"
                    [A_string (flagExportInterval w1); A_error err] w1)
    | inl interval =>
        let w2 := log_Printf "Exporting variables every %v"
                             [A_Duration interval] w1 in
        match expvar_NewInt "CubeExports" (vars w2) with
        | None =>
            (Panicked,
             log_Printf "Reuse of exported var name:"
                        [A_string "CubeExports"] w2)
        | Some vs =>
            (Looping,
             Run_loop collectionType putUrl (time_Tick interval ticks)
                      (set_vars vs w2))
        end
    end.

End Cube.

(* ===================================================================== *)
(** ** Observations and sample worlds *)
(* ===================================================================== *)

(** The export counter, as the registry shows it. *)
Definition ExportCounter (w : World) : option Var :=
  expvar_Get "CubeExports" (vars w).

(** Unicode tables in which no rune above U+00FF is printable, and the
    fraction of a unit computed exactly: the parameters of the samples. *)
Definition no_tables : N -> bool := fun _ => false.
Definition exact_fraction (f unit scale : Z) : Z := f * unit / scale.

(** A collector that cannot be reached, and one with which every call of
    [http.Post] returns a response of the same status. *)
Definition unreachable : list Request -> Request -> PostResult :=
  fun _ r => PostError (url_Error "Post" (req_url r) "connection refused").

Definition answering (code : Z) : list Request -> Request -> PostResult :=
  fun _ _ => Response code.

(** A process with the default host and port and two exported variables. *)
Definition sample_world (interval : string) (enabled : bool)
           (net : list Request -> Request -> PostResult) : World :=
  mkWorld "localhost" 1080 interval enabled
          [("cmdline", Var_Other "[]"); ("requests", Var_Int 42)]
          [] [] net 0 (mkTime 1700000000 0 0).

Definition sample_url : string := "http://localhost:1080/1.0/event/put".

(** A collector that is unreachable at every other POST and answers the
    rest with 503. *)
Definition flaky : list Request -> Request -> PostResult :=
  fun history r =>
    if Nat.even (List.length history)
    then PostError (url_Error "Post" (req_url r) "connection refused")
    else Response 503.

(** The sample process inside the loop of [Run]: the counter is exported
    and at zero. *)
Definition looping_world (net : list Request -> Request -> PostResult) : World :=
  mkWorld "localhost" 1080 "10s" true
          [("CubeExports", Var_Int 0); ("cmdline", Var_Other "[]")]
          [] [] net 0 (mkTime 1700000000 0 0).

(** Five ticks, ten seconds apart. *)
Definition five_ticks : list Time :=
  [mkTime 1700000010 0 0; mkTime 1700000020 0 0; mkTime 1700000030 0 0;
   mkTime 1700000040 0 0; mkTime 1700000050 0 0].

(** The reading of the specification in which the error that a failed
    export returns holds the payload: some [payload_of] finds, in every
    error returned, the request that was tried. *)
Definition error_carries_payload (payload_of : error -> string) : Prop :=
  forall (tables : N -> bool) (collectionType putUrl : string) (t : Time)
         (w : World) (e : error),
    fst (ExportVariablesWithTimestamp tables collectionType putUrl t w) = Some e ->
    payload_of e = build_request tables collectionType t (vars w).

(** The reading of the specification in which the POST is the only effect
    of an export: the world after it is the world before it with the one
    request added to the traffic. *)
Definition only_effect_is_the_post (tables : N -> bool)
           (collectionType putUrl : string) (t : Time) (w : World) : Prop :=
  snd (ExportVariablesWithTimestamp tables collectionType putUrl t w)
  = set_traffic
      (posts w ++ [mkRequest putUrl "application/json"
                     (build_request tables collectionType t (vars w))])%list
      (open_bodies w) w.

(* ===================================================================== *)
(** ** The shape of an [ANSIC] time, and bounded checks *)
(* ===================================================================== *)

(** The number that a string of decimal digits writes. *)
Fixpoint decimal_value (s : string) : Z :=
  match s with
  | EmptyString => 0
  | String c rest => digit_val c * 10 ^ Z.of_nat (String.length rest)
                     + decimal_value rest
  end.

Fixpoint all_digits (s : string) : bool :=
  match s with
  | EmptyString => true
  | String c rest => is_digit c && all_digits rest
  end.

(** [P] on the [n] numbers from [z] on. *)
Fixpoint all_from (n : nat) (z : Z) (P : Z -> bool) : bool :=
  match n with
  | O => true
  | S k => P z && all_from k (z + 1) P
  end.

(** [P] on every number from 0 to below [n]. *)
Definition all_below (n : Z) (P : Z -> bool) : bool :=
  all_from (Z.to_nat n) 0 P.

Definition shortDayNames : list string :=
  ["Sun"; "Mon"; "Tue"; "Wed"; "Thu"; "Fri"; "Sat"].

Definition shortMonthNames : list string :=
  ["Jan"; "Feb"; "Mar"; "Apr"; "May"; "Jun"; "Jul"; "Aug"; "Sep"; "Oct";
   "Nov"; "Dec"].

Definition one_of (names : list string) (a b c : ascii) : bool :=
  existsb (String.eqb (String a (String b (String c EmptyString)))) names.

(** A year as [stdLongYear] writes it: at least four digits, after a minus
    sign for a year before the year 0. *)
Definition is_long_year (s : string) : bool :=
  match s with
  | String "-" digits => all_digits digits && (4 <=? String.length digits)%nat
  | _ => all_digits s && (4 <=? String.length s)%nat
  end.

(** The layout [Mon Jan _2 15:04:05 2006], character by character: an
    English day and month of three letters, the day of the month in two
    columns, the time of day in digits, and the year. *)
Definition is_ANSIC (s : string) : bool :=
  match s with
  | String w1 (String w2 (String w3 (String " "
    (String m1 (String m2 (String m3 (String " "
    (String d1 (String d2 (String " "
    (String h1 (String h2 (String ":"
    (String i1 (String i2 (String ":"
    (String s1 (String s2 (String " " year))))))))))))))))))) =>
      one_of shortDayNames w1 w2 w3 && one_of shortMonthNames m1 m2 m3 &&
      (Ascii.eqb d1 " " || is_digit d1) && is_digit d2 &&
      is_digit h1 && is_digit h2 && is_digit i1 && is_digit i2 &&
      is_digit s1 && is_digit s2 && is_long_year year
  | _ => false
  end.

(** The fields of the layout, one by one. *)
Definition is_three_of (names : list string) (s : string) : bool :=
  match s with
  | String a (String b (String c EmptyString)) => one_of names a b c
  | _ => false
  end.

Definition is_two_digits (s : string) : bool :=
  match s with
  | String x (String y EmptyString) => is_digit x && is_digit y
  | _ => false
  end.

Definition is_day_columns (s : string) : bool :=
  match s with
  | String x (String y EmptyString) =>
      (Ascii.eqb x " " || is_digit x) && is_digit y
  | _ => false
  end.

(* ===================================================================== *)
(** ** JSON texts *)
(* ===================================================================== *)

(** What a JSON text says, after RFC 8259, to read the request as the
    collector does.  Strings and numbers are kept as they are written: a
    string is the text between its quotes, escapes left as they stand. *)
#[local] Unset Elimination Schemes.
Inductive json : Type :=
| JNull
| JTrue
| JFalse
| JNumber (text : string)
| JString (text : string)
| JArray (elements : list json)
| JObject (members : list (string * json)).
#[local] Set Elimination Schemes.

Module Json.

(** Insignificant whitespace: space, tab, line feed, carriage return. *)
Definition is_ws (c : ascii) : bool :=
  Ascii.eqb c " " || Ascii.eqb c tab || Ascii.eqb c newline
  || (byte_of c =? 13)%N.

Fixpoint skip_ws (s : string) : string :=
  match s with
  | EmptyString => EmptyString
  | String c rest => if is_ws c then skip_ws rest else s
  end.

Definition is_hex (c : ascii) : bool :=
  is_digit c || between "a" c "f" || between "A" c "F".

(** The letters that may follow a backslash, [u] apart. *)
Definition is_escape (c : ascii) : bool :=
  Ascii.eqb c dquote || Ascii.eqb c "\" || Ascii.eqb c "/" ||
  Ascii.eqb c "b" || Ascii.eqb c "f" || Ascii.eqb c "n" ||
  Ascii.eqb c "r" || Ascii.eqb c "t".

Definition four_hex (s : string) : bool :=
  match s with
  | String a (String b (String c (String d _))) =>
      is_hex a && is_hex b && is_hex c && is_hex d
  | _ => false
  end.

(** A character that stands for itself inside a string: not a control
    character, not the quote, not the backslash. *)
Definition is_plain (c : ascii) : bool :=
  (32 <=? byte_of c)%N && negb (Ascii.eqb c dquote) && negb (Ascii.eqb c "\").

(** The text of a string, read from after its opening quote up to its
    closing quote, and what follows the closing quote. *)
Fixpoint string_body (s : string) : option (string * string) :=
  match s with
  | EmptyString => None
  | String c rest =>
      if Ascii.eqb c dquote then Some (EmptyString, rest)
      else if Ascii.eqb c "\" then
        match rest with
        | EmptyString => None
        | String e rest' =>
            if is_escape e || (Ascii.eqb e "u" && four_hex rest') then
              match string_body rest' with
              | Some (text, after) => Some (String c (String e text), after)
              | None => None
              end
            else None
        end
      else if is_plain c then
        match string_body rest with
        | Some (text, after) => Some (String c text, after)
        | None => None
        end
      else None
  end.

(** The characters numbers are made of. *)
Definition is_number_char (c : ascii) : bool :=
  is_digit c || Ascii.eqb c "-" || Ascii.eqb c "+" || Ascii.eqb c "." ||
  Ascii.eqb c "e" || Ascii.eqb c "E".

Fixpoint number_span (s : string) : string * string :=
  match s with
  | EmptyString => (EmptyString, EmptyString)
  | String c rest =>
      if is_number_char c
      then let (n, after) := number_span rest in (String c n, after)
      else (EmptyString, s)
  end.

(** Where the reading of a number stands. *)
Inductive number_state : Type :=
| NStart | NMinus | NZero | NInt | NPoint | NFrac | NExp | NExpSign | NExpDigits.

(** The grammar of a number, one character at a time: an optional minus
    sign; then a zero, or a digit that is not zero and any digits; then,
    optionally, a point and one digit or more; then, optionally, an [e] or
    [E], an optional sign, and one digit or more. *)
Definition number_step (st : number_state) (c : ascii) : option number_state :=
  let e := Ascii.eqb c "e" || Ascii.eqb c "E" in
  let sign := Ascii.eqb c "+" || Ascii.eqb c "-" in
  match st with
  | NStart =>
      if Ascii.eqb c "-" then Some NMinus
      else if Ascii.eqb c "0" then Some NZero
      else if is_digit c then Some NInt else None
  | NMinus =>
      if Ascii.eqb c "0" then Some NZero
      else if is_digit c then Some NInt else None
  | NZero =>
      if Ascii.eqb c "." then Some NPoint
      else if e then Some NExp else None
  | NInt =>
      if is_digit c then Some NInt
      else if Ascii.eqb c "." then Some NPoint
      else if e then Some NExp else None
  | NPoint => if is_digit c then Some NFrac else None
  | NFrac =>
      if is_digit c then Some NFrac
      else if e then Some NExp else None
  | NExp =>
      if sign then Some NExpSign
      else if is_digit c then Some NExpDigits else None
  | NExpSign => if is_digit c then Some NExpDigits else None
  | NExpDigits => if is_digit c then Some NExpDigits else None
  end.

Fixpoint number_accepts (st : number_state) (s : string) : bool :=
  match s with
  | EmptyString =>
      match st with
      | NZero | NInt | NFrac | NExpDigits => true
      | _ => false
      end
  | String c rest =>
      match number_step st c with
      | Some st' => number_accepts st' rest
      | None => false
      end
  end.

(** A number: the longest run of number characters, which has to be a
    number. *)
Definition number (s : string) : option (string * string) :=
  let (n, after) := number_span s in
  if number_accepts NStart n then Some (n, after) else None.

(** One of the words [true], [false] and [null], after its first letter. *)
Fixpoint word (letters : string) (s : string) : option string :=
  match letters with
  | EmptyString => Some s
  | String l letters' =>
      match s with
      | String c rest => if Ascii.eqb c l then word letters' rest else None
      | EmptyString => None
      end
  end.

Definition literal (letters : string) (j : json) (s : string)
  : option (json * string) :=
  match word letters s with
  | Some after => Some (j, after)
  | None => None
  end.

(** The elements of an array after the first bracket, up to the closing
    one; [value] reads one value. *)
Fixpoint elements (value : string -> option (json * string))
         (fuel : nat) (s : string) : option (list json * string) :=
  match fuel with
  | O => None
  | S fuel' =>
      match value s with
      | None => None
      | Some (j, after) =>
          match skip_ws after with
          | EmptyString => None
          | String c rest =>
              if Ascii.eqb c "," then
                match elements value fuel' rest with
                | Some (js, after') => Some (j :: js, after')
                | None => None
                end
              else if Ascii.eqb c "]" then Some ([j], rest)
              else None
          end
      end
  end.

(** The members of an object after the first brace, up to the closing
    one. *)
Fixpoint members (value : string -> option (json * string))
         (fuel : nat) (s : string) : option (list (string * json) * string) :=
  match fuel with
  | O => None
  | S fuel' =>
      match skip_ws s with
      | EmptyString => None
      | String c0 s0 =>
          if negb (Ascii.eqb c0 dquote) then None
          else
            match string_body s0 with
            | None => None
            | Some (key, s1) =>
                match skip_ws s1 with
                | EmptyString => None
                | String c1 s2 =>
                    if negb (Ascii.eqb c1 ":") then None
                    else
                      match value s2 with
                      | None => None
                      | Some (j, s3) =>
                          match skip_ws s3 with
                          | EmptyString => None
                          | String c3 s4 =>
                              if Ascii.eqb c3 "," then
                                match members value fuel' s4 with
                                | Some (ms, after) => Some ((key, j) :: ms, after)
                                | None => None
                                end
                              else if Ascii.eqb c3 "}" then Some ([(key, j)], s4)
                              else None
                          end
                      end
                end
            end
      end
  end.

Definition starts_with (c : ascii) (s : string) : bool :=
  match s with
  | String c' _ => Ascii.eqb c' c
  | EmptyString => false
  end.

Definition tail (s : string) : string :=
  match s with
  | String _ rest => rest
  | EmptyString => EmptyString
  end.

(** One value, after whitespace, and what follows it.  [fuel] bounds the
    depth of the value and the length of its arrays and objects. *)
Fixpoint value (fuel : nat) (s : string) : option (json * string) :=
  match fuel with
  | O => None
  | S fuel' =>
      match skip_ws s with
      | EmptyString => None
      | String c rest =>
          if Ascii.eqb c "{" then
            if starts_with "}" (skip_ws rest)
            then Some (JObject [], tail (skip_ws rest))
            else
              match members (value fuel') fuel' rest with
              | Some (ms, after) => Some (JObject ms, after)
              | None => None
              end
          else if Ascii.eqb c "[" then
            if starts_with "]" (skip_ws rest)
            then Some (JArray [], tail (skip_ws rest))
            else
              match elements (value fuel') fuel' rest with
              | Some (js, after) => Some (JArray js, after)
              | None => None
              end
          else if Ascii.eqb c dquote then
            match string_body rest with
            | Some (text, after) => Some (JString text, after)
            | None => None
            end
          else if Ascii.eqb c "t" then literal "rue" JTrue rest
          else if Ascii.eqb c "f" then literal "alse" JFalse rest
          else if Ascii.eqb c "n" then literal "ull" JNull rest
          else
            match number (String c rest) with
            | Some (n, after) => Some (JNumber n, after)
            | None => None
            end
      end
  end.

(** A JSON text: one value, and whitespace around it.  The length of the
    text is fuel enough for its depth and for its longest array. *)
Definition parse (s : string) : option json :=
  match value (S (String.length s)) s with
  | Some (j, after) =>
      match skip_ws after with
      | EmptyString => Some j
      | String _ _ => None
      end
  | None => None
  end.

(** The reading of a number ends at [t]. *)
Definition number_end (t : string) : bool :=
  match t with
  | EmptyString => true
  | String c _ => negb (is_number_char c)
  end.

(** A reader of values that reads the same value when more text follows:
    [t] after [s].  A number that ran to the end of [s] needs [t] not to
    go on with the characters of a number. *)
Definition reads_on (read : string -> option (json * string)) : Prop :=
  forall (s t : string) (j : json) (after : string),
    read s = Some (j, after) ->
    (after = EmptyString -> number_end t = true) ->
    read (s ++ t) = Some (j, (after ++ t)%string).

(** A text without control characters, quotes and backslashes: it is the
    same inside a JSON string as outside. *)
Fixpoint plain (s : string) : bool :=
  match s with
  | EmptyString => true
  | String c rest => is_plain c && plain rest
  end.

(** A text of printable ASCII characters, from the space to the tilde. *)
Fixpoint printable (s : string) : bool :=
  match s with
  | EmptyString => true
  | String c rest => between " " c "~" && printable rest
  end.

End Json.

(* ===================================================================== *)
(** ** The flags at start, and the loop seen from outside *)
(* ===================================================================== *)

(** [init]: the four flags are declared with their defaults, which
    [flag.StringVar], [flag.IntVar] and [flag.BoolVar] store in the
    variables at once. *)
Definition init (w : World) : World :=
  mkWorld "localhost" 1080 "10s" true
          (vars w) (logged w) (posts w) (collector w) (open_bodies w) (clock w).

(** The URL that [Run] makes of the host and the port (line 64). *)
Definition collector_url (w : World) : string :=
  "http://" ++ flagCollectorHost w ++ ":" ++
  FormatInt (flagCollectorPort w) ++ "/1.0/event/put".

(** The registry after [k] calls of [exportCounter.Add(1)]. *)
Definition after_adds (k : nat) (vs : registry) : registry :=
  Nat.iter k (Int_Add "CubeExports" 1) vs.

(** The four flags of a world. *)
Definition flags_of (w : World) : string * Z * string * bool :=
  (flagCollectorHost w, flagCollectorPort w,
   flagExportInterval w, flagExportToCube w).

(** A request as [ExportVariablesWithTimestamp] sends it to [url]. *)
Definition sent_to (url : string) (r : Request) : Prop :=
  req_url r = url /\ req_contentType r = "application/json".

(** Decimal digits that begin with a digit other than zero. *)
Definition starts_nonzero (s : string) : bool :=
  match s with
  | String c rest => is_digit c && negb (Ascii.eqb c "0") && all_digits rest
  | EmptyString => false
  end.

(** Variables that are all [expvar.Int]s, by name and value. *)
Definition Int_vars (ints : list (string * Z)) : registry :=
  map (fun kn => (fst kn, Var_Int (snd kn))) ints.

(** The sample process inside the loop with its counter at the greatest
    [int64]. *)
Definition brimful_world : World :=
  mkWorld "localhost" 1080 "10s" true
          [("CubeExports", Var_Int 9223372036854775807); ("cmdline", Var_Other "[]")]
          [] [] flaky 0 (mkTime 1700000000 0 0).

(** A process that exports integers only. *)
Definition integer_world : World :=
  mkWorld "localhost" 1080 "10s" true
          (Int_vars [("CubeExports", 0); ("errors", -3); ("requests", 42)])
          [] [] flaky 0 (mkTime 1700000000 0 0).

(* ===================================================================== *)
(** ** The first step of [http.Post]: the URL is parsed *)
(* ===================================================================== *)

(** [stringContainsCTLByte] of [net/url]: a byte below the space, or
    [0x7f]. *)
Fixpoint stringContainsCTLByte (s : string) : bool :=
  match s with
  | EmptyString => false
  | String c rest =>
      (byte_of c <? 32)%N || (byte_of c =? 127)%N || stringContainsCTLByte rest
  end.

(** [strings.Cut(rawURL, "#")]: the text before the first [#]. *)
Fixpoint before_fragment (s : string) : string :=
  match s with
  | EmptyString => EmptyString
  | String c rest =>
      if Ascii.eqb c "#" then EmptyString else String c (before_fragment rest)
  end.

(** [http.Post] begins with [http.NewRequest], which parses the URL, and
    [url.Parse] refuses a URL with a control character before its
    fragment: [http.Post] then returns that error, and nothing has been
    sent.  [attempt] is the rest of the call, for a URL that passes this
    check: what the connection to the collector gives. *)
Definition parse_first (attempt : list Request -> Request -> PostResult)
  : list Request -> Request -> PostResult :=
  fun history r =>
    if stringContainsCTLByte (before_fragment (req_url r))
    then PostError (url_Error "parse" (before_fragment (req_url r))
                              "net/url: invalid control character in URL")
    else attempt history r.

(** A URL with a tab in the name of the host. *)
Definition tabbed_url : string :=
  "http://local" ++ String tab "host:1080/1.0/event/put".

(** The reading of the specification in which [send] returns an error
    exactly when the POST fails at the level of the connection: when the
    attempt to reach the collector fails, and not otherwise. *)
Definition fails_only_at_connection_level : Prop :=
  forall (attempt : list Request -> Request -> PostResult)
         (putUrl payload : string) (w : World),
    collector w = parse_first attempt ->
    ((exists err, fst (send putUrl payload w) = Some err) <->
     (exists err, attempt (posts w) (mkRequest putUrl "application/json" payload)
                  = PostError err)).

(** The reading of the specification in which the counter, over any
    ticks, is higher by their number and has not gone down. *)
Definition counter_goes_up_by_the_ticks : Prop :=
  forall (tables : N -> bool) (collectionType putUrl : string)
         (ticks : list Time) (w : World) (c : Z),
    ExportCounter w = Some (Var_Int c) ->
    exists c' : Z,
      ExportCounter (Run_loop tables collectionType putUrl ticks w)
      = Some (Var_Int c') /\
      c' = c + Z.of_nat (List.length ticks) /\
      c <= c'.

(* ===================================================================== *)
(** ** Properties *)
(* ===================================================================== *)

(** *** Strings and numbers *)

Lemma append_assoc (a b c : string) : ((a ++ b) ++ c = a ++ (b ++ c))%string.
Proof. induction a as [| x a IH]; simpl; [| rewrite IH]; reflexivity. Qed.

Lemma append_nil_r (a : string) : (a ++ EmptyString)%string = a.
Proof. induction a as [| x a IH]; simpl; [| rewrite IH]; reflexivity. Qed.

Lemma length_append (a b : string) :
  String.length (a ++ b) = (String.length a + String.length b)%nat.
Proof. induction a as [| x a IH]; simpl; [| rewrite IH]; reflexivity. Qed.

Lemma all_from_spec (P : Z -> bool) (n : nat) :
  forall z0 : Z, all_from n z0 P = true ->
  forall z : Z, z0 <= z < z0 + Z.of_nat n -> P z = true.
Proof.
  induction n as [| k IH]; intros z0 Hall z Hz.
  - simpl in Hz. lia.
  - cbn [all_from] in Hall. apply andb_true_iff in Hall as [Hz0 Hrest].
    destruct (Z.eq_dec z z0) as [-> | Hne]; [exact Hz0 |].
    apply (IH (z0 + 1) Hrest). lia.
Qed.

Lemma all_below_spec (P : Z -> bool) (n : Z) :
  all_below n P = true -> forall z : Z, 0 <= z < n -> P z = true.
Proof.
  intros Hall z Hz. apply (all_from_spec P (Z.to_nat n) 0 Hall). lia.
Qed.

Lemma is_digit_digit (d : Z) : 0 <= d < 10 -> is_digit (digit d) = true.
Proof.
  apply (all_below_spec (fun d => is_digit (digit d)) 10). reflexivity.
Qed.

Lemma digit_val_digit (d : Z) : 0 <= d < 10 -> digit_val (digit d) = d.
Proof.
  intro H.
  apply Z.eqb_eq.
  apply (all_below_spec (fun d => digit_val (digit d) =? d) 10); auto.
Qed.

(** [utoa_loop] with enough fuel writes [u] in digits before [acc]. *)
Lemma utoa_loop_spec (fuel : nat) :
  forall (u : Z) (acc : string),
    0 <= u < 2 ^ Z.of_nat fuel ->
    all_digits acc = true ->
    all_digits (utoa_loop fuel u acc) = true /\
    decimal_value (utoa_loop fuel u acc)
    = u * 10 ^ Z.of_nat (String.length acc) + decimal_value acc.
Proof.
  induction fuel as [| f IH]; intros u acc Hu Hacc.
  - simpl in Hu. assert (u = 0) by lia. subst u. simpl. auto.
  - cbn [utoa_loop].
    assert (Hm : 0 <= u mod 10 < 10) by (apply Z.mod_pos_bound; lia).
    assert (Hacc' : all_digits (String (digit (u mod 10)) acc) = true).
    { simpl. rewrite is_digit_digit, Hacc; auto. }
    assert (Hval : decimal_value (String (digit (u mod 10)) acc)
                   = u mod 10 * 10 ^ Z.of_nat (String.length acc)
                     + decimal_value acc).
    { simpl. rewrite digit_val_digit; auto. }
    destruct (u / 10 =? 0) eqn:Hq.
    + split; [exact Hacc' |]. rewrite Hval.
      apply Z.eqb_eq in Hq.
      assert (Hsmall : u mod 10 = u) by (pose proof (Z.div_mod u 10); lia).
      rewrite Hsmall. reflexivity.
    + assert (Hq' : 0 <= u / 10 < 2 ^ Z.of_nat f).
      { rewrite Nat2Z.inj_succ, Z.pow_succ_r in Hu by lia.
        split; [apply Z.div_pos; lia |].
        apply Z.div_lt_upper_bound; lia. }
      destruct (IH (u / 10) _ Hq' Hacc') as [Hd Hv].
      split; [exact Hd |]. rewrite Hv, Hval.
      cbn [String.length]. rewrite Nat2Z.inj_succ, Z.pow_succ_r by lia.
      assert (E : u = 10 * (u / 10) + u mod 10) by (apply Z.div_mod; lia).
      set (hi := u / 10) in *. set (lo := u mod 10) in *.
      clearbody hi lo. rewrite E. ring.
Qed.

(** [FormatUint] has the fuel it needs: it writes digits, and they are the
    digits of its argument. *)
Lemma FormatUint_spec (u : Z) :
  0 <= u ->
  all_digits (FormatUint u) = true /\ decimal_value (FormatUint u) = u.
Proof.
  intro Hu. unfold FormatUint.
  assert (Hfuel : 0 <= u < 2 ^ Z.of_nat (S (Z.to_nat (Z.log2 u)))).
  { split; [exact Hu |].
    rewrite Nat2Z.inj_succ, Z2Nat.id by apply Z.log2_nonneg.
    destruct (Z.eq_dec u 0) as [-> | Hne]; [reflexivity |].
    apply Z.log2_spec. lia. }
  destruct (utoa_loop_spec _ u EmptyString Hfuel eq_refl) as [Hd Hv].
  split; [exact Hd |]. rewrite Hv. simpl. lia.
Qed.

Lemma all_digits_append (a b : string) :
  all_digits (a ++ b) = all_digits a && all_digits b.
Proof.
  induction a as [| x a IH]; simpl; [| rewrite IH, andb_assoc]; reflexivity.
Qed.

Lemma zeros_spec (n : nat) :
  all_digits (zeros n) = true /\ String.length (zeros n) = n.
Proof.
  induction n as [| k [IHd IHl]]; simpl; auto.
Qed.

(** *** The calendar and the layout *)

Lemma civil_from_days_range (days : Z) :
  1 <= snd (fst (civil_from_days days)) <= 12 /\
  1 <= snd (civil_from_days days) <= 31.
Proof.
  unfold civil_from_days. cbn [fst snd].
  set (z := days + 719468).
  set (doe := z - z / 146097 * 146097).
  assert (Hdoe : 0 <= doe < 146097)
    by (subst doe; Z.div_mod_to_equations; lia).
  set (yoe := (doe - doe / 1460 + doe / 36524 - doe / 146096) / 365).
  set (doy := doe - (365 * yoe + yoe / 4 - yoe / 100)).
  assert (Hdoy : 0 <= doy <= 365)
    by (subst doy yoe; Z.div_mod_to_equations; lia).
  set (mp := (5 * doy + 2) / 153).
  assert (Hmp : 0 <= mp <= 11) by (subst mp; Z.div_mod_to_equations; lia).
  split.
  - destruct (mp <? 10) eqn:E; [apply Z.ltb_lt in E | apply Z.ltb_ge in E]; lia.
  - subst mp. Z.div_mod_to_equations. lia.
Qed.

Lemma digits_are_long_year (s : string) :
  all_digits s = true -> (4 <=? String.length s)%nat = true ->
  is_long_year s = true.
Proof.
  destruct s as [| c rest]; [discriminate |].
  intros Hd Hlen. unfold is_long_year.
  destruct c as [[] [] [] [] [] [] [] []];
    try (simpl in Hd; discriminate Hd);
    rewrite Hd, Hlen; reflexivity.
Qed.

Lemma year_is_long_year (y : Z) : is_long_year (appendInt y 4) = true.
Proof.
  unfold appendInt.
  destruct (FormatUint_spec (Z.abs y) (Z.abs_nonneg y)) as [Hd _].
  destruct (zeros_spec (4 - String.length (FormatUint (Z.abs y)))) as [Hz Hl].
  set (body := (zeros (4 - String.length (FormatUint (Z.abs y)))
                ++ FormatUint (Z.abs y))%string).
  assert (Hb : all_digits body = true).
  { subst body. rewrite all_digits_append, Hz, Hd. reflexivity. }
  assert (Hlen : (4 <=? String.length body)%nat = true).
  { apply Nat.leb_le. subst body. rewrite length_append, Hl. lia. }
  destruct (y <? 0).
  - change (all_digits body && (4 <=? String.length body)%nat = true).
    rewrite Hb, Hlen. reflexivity.
  - apply digits_are_long_year; assumption.
Qed.

Lemma fields_make_ANSIC (wd mo dd hh mm ss yy : string) :
  is_three_of shortDayNames wd = true ->
  is_three_of shortMonthNames mo = true ->
  is_day_columns dd = true ->
  is_two_digits hh = true ->
  is_two_digits mm = true ->
  is_two_digits ss = true ->
  is_long_year yy = true ->
  is_ANSIC (wd ++ " " ++ mo ++ " " ++ dd ++ " " ++ hh ++ ":" ++ mm ++ ":"
               ++ ss ++ " " ++ yy) = true.
Proof.
  intros Hwd Hmo Hdd Hhh Hmm Hss Hyy.
  destruct wd as [| w1 [| w2 [| w3 [|]]]]; try discriminate.
  destruct mo as [| m1 [| m2 [| m3 [|]]]]; try discriminate.
  destruct dd as [| d1 [| d2 [|]]]; try discriminate.
  destruct hh as [| h1 [| h2 [|]]]; try discriminate.
  destruct mm as [| i1 [| i2 [|]]]; try discriminate.
  destruct ss as [| s1 [| s2 [|]]]; try discriminate.
  unfold is_three_of, is_two_digits, is_day_columns in *.
  cbn [append is_ANSIC].
  apply andb_true_iff in Hdd as [Hd1 Hd2].
  apply andb_true_iff in Hhh as [Hh1 Hh2].
  apply andb_true_iff in Hmm as [Hi1 Hi2].
  apply andb_true_iff in Hss as [Hs1 Hs2].
  rewrite Hwd, Hmo, Hd1, Hd2, Hh1, Hh2, Hi1, Hi2, Hs1, Hs2, Hyy.
  reflexivity.
Qed.

(** Every time is written in the layout. *)
Lemma Format_ANSIC_is_ANSIC (t : Time) : is_ANSIC (Format_ANSIC t) = true.
Proof.
  unfold Format_ANSIC.
  destruct (civil_from_days_range (wall_days t)) as [Hm Hd].
  apply fields_make_ANSIC.
  - apply (all_below_spec
             (fun i => is_three_of shortDayNames (short_name longDayNames i)) 7);
      [reflexivity | apply Z.mod_pos_bound; lia].
  - apply (all_below_spec
             (fun i => is_three_of shortMonthNames (short_name longMonthNames i))
             12); [reflexivity | unfold Month; lia].
  - apply (all_below_spec (fun d => is_day_columns (under_day d)) 32);
      [reflexivity | unfold Day; lia].
  - apply (all_below_spec (fun n => is_two_digits (appendInt n 2)) 100);
      [reflexivity | unfold Hour; Z.div_mod_to_equations; lia].
  - apply (all_below_spec (fun n => is_two_digits (appendInt n 2)) 100);
      [reflexivity | unfold Minute; Z.div_mod_to_equations; lia].
  - apply (all_below_spec (fun n => is_two_digits (appendInt n 2)) 100);
      [reflexivity | unfold Second; Z.div_mod_to_equations; lia].
  - apply year_is_long_year.
Qed.

(** *** Reading JSON: a text followed by more text *)

Section JsonReading.

Import Json.

Lemma skip_ws_app (s t : string) (c : ascii) (r : string) :
  skip_ws s = String c r -> skip_ws (s ++ t) = String c (r ++ t).
Proof.
  induction s as [| a s IH]; simpl; [discriminate |].
  destruct (is_ws a); [exact IH |].
  intro H. inversion H; subst. reflexivity.
Qed.

Lemma skip_ws_blank (s t : string) :
  skip_ws s = EmptyString -> skip_ws (s ++ t) = skip_ws t.
Proof.
  induction s as [| a s IH]; simpl; [reflexivity |].
  destruct (is_ws a); [exact IH | discriminate].
Qed.

Lemma four_hex_app (s t : string) :
  four_hex s = true -> four_hex (s ++ t) = true.
Proof.
  destruct s as [| a [| b [| c [| d s]]]]; simpl; try discriminate. auto.
Qed.

Lemma string_body_app_bounded (n : nat) :
  forall (s t text after : string),
    (String.length s <= n)%nat ->
    string_body s = Some (text, after) ->
    string_body (s ++ t) = Some (text, after ++ t).
Proof.
  induction n as [| n IH]; intros s t text after Hlen H.
  - destruct s; [discriminate | simpl in Hlen; lia].
  - destruct s as [| c rest]; [discriminate |].
    cbn [string_body append] in *. simpl in Hlen.
    destruct (Ascii.eqb c dquote).
    { inversion H; subst. reflexivity. }
    destruct (Ascii.eqb c "\").
    + destruct rest as [| e rest']; [discriminate |].
      cbn [append]. simpl in Hlen.
      destruct (is_escape e) eqn:He; cbn [orb] in *.
      * destruct (string_body rest') as [[text' after'] |] eqn:Hb; [| discriminate].
        rewrite (IH rest' t text' after') by (auto; lia).
        inversion H; subst. reflexivity.
      * destruct (Ascii.eqb e "u" && four_hex rest') eqn:Hu; [| discriminate].
        apply andb_true_iff in Hu as [Hu1 Hu2].
        rewrite Hu1, (four_hex_app rest' t Hu2). cbn [andb].
        destruct (string_body rest') as [[text' after'] |] eqn:Hb; [| discriminate].
        rewrite (IH rest' t text' after') by (auto; lia).
        inversion H; subst. reflexivity.
    + destruct (is_plain c); [| discriminate].
      destruct (string_body rest) as [[text' after'] |] eqn:Hb; [| discriminate].
      rewrite (IH rest t text' after') by (auto; lia).
      inversion H; subst. reflexivity.
Qed.

Lemma string_body_app (s t text after : string) :
  string_body s = Some (text, after) ->
  string_body (s ++ t) = Some (text, after ++ t).
Proof.
  apply (string_body_app_bounded (String.length s)). lia.
Qed.

(** A plain text is read back as it is. *)
Lemma string_body_plain (text after : string) :
  plain text = true ->
  string_body (text ++ String dquote after) = Some (text, after).
Proof.
  induction text as [| c text IH]; intro H.
  - reflexivity.
  - cbn [plain] in H. apply andb_true_iff in H as [Hc Htext].
    cbn [append string_body]. rewrite Hc.
    unfold is_plain in Hc.
    apply andb_true_iff in Hc as [Hc Hbs].
    apply andb_true_iff in Hc as [_ Hq].
    apply negb_true_iff in Hq, Hbs. rewrite Hq, Hbs.
    rewrite (IH Htext). reflexivity.
Qed.

Lemma number_span_app (s t n after : string) :
  number_span s = (n, after) ->
  (after = EmptyString -> number_end t = true) ->
  number_span (s ++ t) = (n, (after ++ t)%string).
Proof.
  revert n after.
  induction s as [| c s IH]; intros n after H Hend.
  - inversion H; subst. simpl.
    specialize (Hend eq_refl).
    destruct t as [| c t]; [reflexivity |].
    simpl in *. apply negb_true_iff in Hend. rewrite Hend. reflexivity.
  - cbn [number_span append] in *.
    destruct (is_number_char c).
    + destruct (number_span s) as [n' after'] eqn:Hs.
      inversion H; subst.
      rewrite (IH n' after eq_refl Hend). reflexivity.
    + inversion H; subst. reflexivity.
Qed.

Lemma number_app (s t n after : string) :
  number s = Some (n, after) ->
  (after = EmptyString -> number_end t = true) ->
  number (s ++ t) = Some (n, (after ++ t)%string).
Proof.
  unfold number. intros H Hend.
  destruct (number_span s) as [n' after'] eqn:Hs.
  destruct (number_accepts NStart n') eqn:Hacc; [| discriminate].
  inversion H; subst.
  rewrite (number_span_app s t n after Hs Hend), Hacc. reflexivity.
Qed.

Lemma word_app (letters s t after : string) :
  word letters s = Some after -> word letters (s ++ t) = Some (after ++ t)%string.
Proof.
  revert s. induction letters as [| l letters IH]; intros s H.
  - inversion H; subst. reflexivity.
  - destruct s as [| c s]; [discriminate |].
    cbn [word append] in *.
    destruct (Ascii.eqb c l); [auto | discriminate].
Qed.

Lemma literal_app (letters : string) (j j' : json) (s t after : string) :
  literal letters j s = Some (j', after) ->
  literal letters j (s ++ t) = Some (j', (after ++ t)%string).
Proof.
  unfold literal. intro H.
  destruct (word letters s) as [after' |] eqn:Hw; [| discriminate].
  inversion H; subst. rewrite (word_app _ _ t _ Hw). reflexivity.
Qed.

Lemma elements_blank (pv : string -> option (json * string)) (n : nat) (s : string) :
  skip_ws s = EmptyString ->
  (forall s', skip_ws s' = EmptyString -> pv s' = None) ->
  elements pv n s = None.
Proof.
  intros Hs Hpv. destruct n; cbn [elements]; [reflexivity |].
  rewrite (Hpv s Hs). reflexivity.
Qed.

Lemma members_blank (pv : string -> option (json * string)) (n : nat) (s : string) :
  skip_ws s = EmptyString -> members pv n s = None.
Proof.
  intro Hs. destruct n; cbn [members]; [reflexivity |].
  rewrite Hs. reflexivity.
Qed.

Lemma value_blank (n : nat) (s : string) :
  skip_ws s = EmptyString -> value n s = None.
Proof.
  intro Hs. destruct n; cbn [value]; [reflexivity |].
  rewrite Hs. reflexivity.
Qed.

Lemma elements_app (pv : string -> option (json * string)) :
  reads_on pv ->
  forall (n : nat) (s t : string) (js : list json) (after : string),
    elements pv n s = Some (js, after) ->
    elements pv n (s ++ t) = Some (js, (after ++ t)%string).
Proof.
  intros Hpv n.
  induction n as [| n IH]; intros s t js after H; [discriminate |].
  cbn [elements] in *.
  destruct (pv s) as [[j r] |] eqn:Hv; [| discriminate].
  destruct (skip_ws r) as [| c rest] eqn:Hws; [discriminate |].
  rewrite (Hpv s t j r Hv) by (intros ->; discriminate).
  rewrite (skip_ws_app r t c rest Hws).
  destruct (Ascii.eqb c ",").
  - destruct (elements pv n rest) as [[js' after'] |] eqn:He; [| discriminate].
    rewrite (IH rest t js' after' He). inversion H; subst. reflexivity.
  - destruct (Ascii.eqb c "]"); [| discriminate].
    inversion H; subst. reflexivity.
Qed.

Lemma members_app (pv : string -> option (json * string)) :
  reads_on pv ->
  forall (n : nat) (s t : string) (ms : list (string * json)) (after : string),
    members pv n s = Some (ms, after) ->
    members pv n (s ++ t) = Some (ms, (after ++ t)%string).
Proof.
  intros Hpv n.
  induction n as [| n IH]; intros s t ms after H; [discriminate |].
  cbn [members] in *.
  destruct (skip_ws s) as [| c0 s0] eqn:Hws0; [discriminate |].
  rewrite (skip_ws_app s t c0 s0 Hws0).
  destruct (negb (Ascii.eqb c0 dquote)); [discriminate |].
  destruct (string_body s0) as [[key s1] |] eqn:Hkey; [| discriminate].
  rewrite (string_body_app s0 t key s1 Hkey).
  destruct (skip_ws s1) as [| c1 s2] eqn:Hws1; [discriminate |].
  rewrite (skip_ws_app s1 t c1 s2 Hws1).
  destruct (negb (Ascii.eqb c1 ":")); [discriminate |].
  destruct (pv s2) as [[j s3] |] eqn:Hv; [| discriminate].
  destruct (skip_ws s3) as [| c3 s4] eqn:Hws3; [discriminate |].
  rewrite (Hpv s2 t j s3 Hv) by (intros ->; discriminate).
  rewrite (skip_ws_app s3 t c3 s4 Hws3).
  destruct (Ascii.eqb c3 ",").
  - destruct (members pv n s4) as [[ms' after'] |] eqn:Hm; [| discriminate].
    rewrite (IH s4 t ms' after' Hm). inversion H; subst. reflexivity.
  - destruct (Ascii.eqb c3 "}"); [| discriminate].
    inversion H; subst. reflexivity.
Qed.

(** A value that was read is read again when more text follows it, unless
    the value is a number that ran up to the end and the text goes on with
    the characters of a number. *)
Lemma value_app (n : nat) : reads_on (value n).
Proof.
  induction n as [| n IH]; intros s t j r H Hend; [discriminate |].
  cbn [value] in *.
  destruct (skip_ws s) as [| c rest] eqn:Hws; [discriminate |].
  rewrite (skip_ws_app s t c rest Hws).
  destruct (Ascii.eqb c "{").
  { destruct (skip_ws rest) as [| c' rest'] eqn:Hws'.
    - cbn [starts_with] in H. rewrite (members_blank _ _ _ Hws') in H. discriminate.
    - rewrite (skip_ws_app rest t c' rest' Hws'). cbn [starts_with tail] in *.
      destruct (Ascii.eqb c' "}").
      + inversion H; subst. reflexivity.
      + destruct (members (value n) n rest) as [[ms after] |] eqn:Hm; [| discriminate].
        rewrite (members_app _ IH n rest t ms after Hm).
        inversion H; subst. reflexivity. }
  destruct (Ascii.eqb c "[").
  { destruct (skip_ws rest) as [| c' rest'] eqn:Hws'.
    - cbn [starts_with] in H.
      rewrite (elements_blank _ _ _ Hws' (value_blank n)) in H. discriminate.
    - rewrite (skip_ws_app rest t c' rest' Hws'). cbn [starts_with tail] in *.
      destruct (Ascii.eqb c' "]").
      + inversion H; subst. reflexivity.
      + destruct (elements (value n) n rest) as [[js after] |] eqn:He; [| discriminate].
        rewrite (elements_app _ IH n rest t js after He).
        inversion H; subst. reflexivity. }
  destruct (Ascii.eqb c dquote).
  { destruct (string_body rest) as [[text after] |] eqn:Hb; [| discriminate].
    rewrite (string_body_app rest t text after Hb).
    inversion H; subst. reflexivity. }
  destruct (Ascii.eqb c "t"); [exact (literal_app _ _ _ _ _ _ H) |].
  destruct (Ascii.eqb c "f"); [exact (literal_app _ _ _ _ _ _ H) |].
  destruct (Ascii.eqb c "n"); [exact (literal_app _ _ _ _ _ _ H) |].
  destruct (number (String c rest)) as [[num after] |] eqn:Hn; [| discriminate].
  inversion H; subst.
  change (String c (rest ++ t)) with (String c rest ++ t)%string.
  rewrite (number_app _ t num r Hn Hend). reflexivity.
Qed.

(** *** Reading JSON: more fuel *)

Lemma elements_mono (pv pv' : string -> option (json * string)) :
  (forall s x, pv s = Some x -> pv' s = Some x) ->
  forall (n n' : nat) (s : string) (x : list json * string),
    (n <= n')%nat -> elements pv n s = Some x -> elements pv' n' s = Some x.
Proof.
  intros Hpv n.
  induction n as [| n IH]; intros n' s x Hle H; [discriminate |].
  destruct n' as [| n']; [lia |].
  cbn [elements] in *.
  destruct (pv s) as [[j r] |] eqn:Hv; [| discriminate].
  rewrite (Hpv _ _ Hv).
  destruct (skip_ws r) as [| c rest]; [discriminate |].
  destruct (Ascii.eqb c ","); [| exact H].
  destruct (elements pv n rest) as [[js after] |] eqn:He; [| discriminate].
  rewrite (IH n' rest _ ltac:(lia) He). exact H.
Qed.

Lemma members_mono (pv pv' : string -> option (json * string)) :
  (forall s x, pv s = Some x -> pv' s = Some x) ->
  forall (n n' : nat) (s : string) (x : list (string * json) * string),
    (n <= n')%nat -> members pv n s = Some x -> members pv' n' s = Some x.
Proof.
  intros Hpv n.
  induction n as [| n IH]; intros n' s x Hle H; [discriminate |].
  destruct n' as [| n']; [lia |].
  cbn [members] in *.
  destruct (skip_ws s) as [| c0 s0]; [discriminate |].
  destruct (negb (Ascii.eqb c0 dquote)); [discriminate |].
  destruct (string_body s0) as [[key s1] |]; [| discriminate].
  destruct (skip_ws s1) as [| c1 s2]; [discriminate |].
  destruct (negb (Ascii.eqb c1 ":")); [discriminate |].
  destruct (pv s2) as [[j s3] |] eqn:Hv; [| discriminate].
  rewrite (Hpv _ _ Hv).
  destruct (skip_ws s3) as [| c3 s4]; [discriminate |].
  destruct (Ascii.eqb c3 ","); [| exact H].
  destruct (members pv n s4) as [[ms after] |] eqn:Hm; [| discriminate].
  rewrite (IH n' s4 _ ltac:(lia) Hm). exact H.
Qed.

Lemma value_mono (n : nat) :
  forall (n' : nat) (s : string) (x : json * string),
    (n <= n')%nat -> value n s = Some x -> value n' s = Some x.
Proof.
  induction n as [| n IH]; intros n' s x Hle H; [discriminate |].
  destruct n' as [| n']; [lia |].
  assert (Hn : (n <= n')%nat) by lia.
  cbn [value] in *.
  destruct (skip_ws s) as [| c rest]; [discriminate |].
  destruct (Ascii.eqb c "{").
  { destruct (starts_with "}" (skip_ws rest)); [exact H |].
    destruct (members (value n) n rest) as [[ms after] |] eqn:Hm; [| discriminate].
    rewrite (members_mono _ _ (fun s x => IH n' s x Hn) n n' rest _ Hn Hm).
    exact H. }
  destruct (Ascii.eqb c "[").
  { destruct (starts_with "]" (skip_ws rest)); [exact H |].
    destruct (elements (value n) n rest) as [[js after] |] eqn:He; [| discriminate].
    rewrite (elements_mono _ _ (fun s x => IH n' s x Hn) n n' rest _ Hn He).
    exact H. }
  exact H.
Qed.

End JsonReading.

(** *** Names in quotes, and the time, inside a JSON string *)

Section QuotedNames.

Import Json.

Variable tables : N -> bool.

(** One printable ASCII character in [Quote]: itself, after a backslash if
    it is the quote or the backslash. *)
Lemma quote_loop_printable (c : ascii) (rest : string) :
  between " " c "~" = true ->
  quote_loop tables 0 (String c rest)
  = ((if Ascii.eqb c dquote || Ascii.eqb c "\"
      then String "\" (String c EmptyString)
      else String c EmptyString)
     ++ quote_loop tables 0 rest)%string.
Proof.
  destruct c as [[] [] [] [] [] [] [] []]; intro H;
    try (cbv in H; discriminate H); reflexivity.
Qed.

Lemma printable_cases (c : ascii) :
  between " " c "~" = true ->
  Ascii.eqb c dquote || Ascii.eqb c "\" = false ->
  is_plain c = true /\ Ascii.eqb c dquote = false /\ Ascii.eqb c "\" = false.
Proof.
  destruct c as [[] [] [] [] [] [] [] []]; intros H1 H2;
    try (cbv in H1; discriminate H1); try (cbv in H2; discriminate H2);
    repeat split.
Qed.

(** The text that [Quote] puts between the quotes is read back as it is. *)
Lemma string_body_quoted (name after : string) :
  printable name = true ->
  string_body (quoted_text tables name ++ String dquote after)
  = Some (quoted_text tables name, after).
Proof.
  unfold quoted_text.
  induction name as [| c name IH]; intro H; [reflexivity |].
  cbn [printable] in H. apply andb_true_iff in H as [Hc Hname].
  rewrite (quote_loop_printable c name Hc).
  specialize (IH Hname).
  destruct (Ascii.eqb c dquote || Ascii.eqb c "\") eqn:Hesc.
  - cbn [append string_body].
    assert (Hq : is_escape c = true).
    { unfold is_escape. apply orb_true_iff in Hesc as [-> | ->];
        rewrite ?orb_true_r; reflexivity. }
    rewrite Hq, IH. cbn [orb]. reflexivity.
  - destruct (printable_cases c Hc Hesc) as [Hp [Hq Hb]].
    cbn [append string_body]. rewrite Hq, Hb, Hp, IH. reflexivity.
Qed.

(** A name without quotes and backslashes is itself between the quotes. *)
Lemma quoted_text_plain (name : string) :
  printable name = true -> plain name = true ->
  quoted_text tables name = name.
Proof.
  unfold quoted_text.
  induction name as [| c name IH]; intros H Hp; [reflexivity |].
  cbn [printable plain] in H, Hp.
  apply andb_true_iff in H as [Hc Hname].
  apply andb_true_iff in Hp as [Hpc Hpname].
  rewrite (quote_loop_printable c name Hc), (IH Hname Hpname).
  unfold is_plain in Hpc.
  apply andb_true_iff in Hpc as [Hpc Hb].
  apply andb_true_iff in Hpc as [_ Hq].
  apply negb_true_iff in Hq, Hb. rewrite Hq, Hb. reflexivity.
Qed.

Lemma Quote_shape (name : string) :
  Quote tables name
  = String dquote (quoted_text tables name ++ String dquote EmptyString).
Proof. reflexivity. Qed.

End QuotedNames.

Lemma plain_append (a b : string) :
  Json.plain (a ++ b) = Json.plain a && Json.plain b.
Proof.
  induction a as [| c a IH]; simpl; [| rewrite IH, andb_assoc]; reflexivity.
Qed.

Lemma digit_is_plain (c : ascii) : is_digit c = true -> Json.is_plain c = true.
Proof.
  destruct c as [[] [] [] [] [] [] [] []]; intro H;
    try (cbv in H; discriminate H); reflexivity.
Qed.

Lemma all_digits_plain (s : string) :
  all_digits s = true -> Json.plain s = true.
Proof.
  induction s as [| c s IH]; simpl; [reflexivity |].
  intro H. apply andb_true_iff in H as [Hc Hs].
  rewrite (digit_is_plain c Hc), (IH Hs). reflexivity.
Qed.

Lemma appendInt_plain (x : Z) (width : nat) : Json.plain (appendInt x width) = true.
Proof.
  unfold appendInt.
  destruct (FormatUint_spec (Z.abs x) (Z.abs_nonneg x)) as [Hd _].
  destruct (zeros_spec (width - String.length (FormatUint (Z.abs x)))) as [Hz _].
  rewrite !plain_append, (all_digits_plain _ Hz), (all_digits_plain _ Hd).
  destruct (x <? 0); reflexivity.
Qed.

Lemma first_bytes_plain (n : nat) :
  forall s : string, Json.plain s = true -> Json.plain (first_bytes n s) = true.
Proof.
  induction n as [| n IH]; intros s H; [reflexivity |].
  destruct s as [| c s]; [reflexivity |].
  cbn [first_bytes Json.plain] in *.
  apply andb_true_iff in H as [Hc Hs].
  rewrite Hc, (IH s Hs). reflexivity.
Qed.

Lemma short_name_plain (table : list string) (i : Z) :
  forallb Json.plain table = true -> Json.plain (short_name table i) = true.
Proof.
  intro Htable. unfold short_name. apply first_bytes_plain.
  destruct (nth_in_or_default (Z.to_nat i) table EmptyString) as [Hin | ->];
    [| reflexivity].
  rewrite forallb_forall in Htable. auto.
Qed.

(** The time of the event needs no escape. *)
Lemma Format_ANSIC_plain (t : Time) : Json.plain (Format_ANSIC t) = true.
Proof.
  unfold Format_ANSIC, under_day.
  rewrite !plain_append, !appendInt_plain.
  rewrite !short_name_plain by reflexivity.
  destruct (Day t <? 10); reflexivity.
Qed.

(** *** Reading the request *)

Section ReadingTheRequest.

Import Json.

Variable tables : N -> bool.

(** One step of [value], by its definition. *)
Lemma value_S (n : nat) (s : string) :
  value (S n) s
  = match skip_ws s with
    | EmptyString => None
    | String c rest =>
        if Ascii.eqb c "{" then
          if starts_with "}" (skip_ws rest)
          then Some (JObject [], tail (skip_ws rest))
          else
            match members (value n) n rest with
            | Some (ms, after) => Some (JObject ms, after)
            | None => None
            end
        else if Ascii.eqb c "[" then
          if starts_with "]" (skip_ws rest)
          then Some (JArray [], tail (skip_ws rest))
          else
            match elements (value n) n rest with
            | Some (js, after) => Some (JArray js, after)
            | None => None
            end
        else if Ascii.eqb c dquote then
          match string_body rest with
          | Some (text, after) => Some (JString text, after)
          | None => None
          end
        else if Ascii.eqb c "t" then literal "rue" JTrue rest
        else if Ascii.eqb c "f" then literal "alse" JFalse rest
        else if Ascii.eqb c "n" then literal "ull" JNull rest
        else
          match number (String c rest) with
          | Some (n, after) => Some (JNumber n, after)
          | None => None
          end
    end.
Proof. reflexivity. Qed.

Lemma value_skip (n : nat) (s s' : string) :
  skip_ws s = skip_ws s' -> value n s = value n s'.
Proof.
  intro H. destruct n; cbn [value]; [reflexivity |]. rewrite H. reflexivity.
Qed.

Lemma value_string (n : nat) (s r text after : string) :
  skip_ws s = String dquote r ->
  string_body r = Some (text, after) ->
  value (S n) s = Some (JString text, after).
Proof.
  intros Hs Hb. rewrite value_S, Hs. cbn. rewrite Hb. reflexivity.
Qed.

Lemma value_object (n : nat) (s r : string) (ms : list (string * json))
      (after : string) :
  skip_ws s = String "{" r ->
  starts_with "}" (skip_ws r) = false ->
  members (value n) n r = Some (ms, after) ->
  value (S n) s = Some (JObject ms, after).
Proof.
  intros Hs Hne Hm. rewrite value_S, Hs.
  set (pv := value n) in *. clearbody pv.
  cbn. rewrite Hne, Hm. reflexivity.
Qed.

Lemma value_empty_object (n : nat) (s r r' : string) :
  skip_ws s = String "{" r ->
  skip_ws r = String "}" r' ->
  value (S n) s = Some (JObject [], r').
Proof.
  intros Hs Hr. rewrite value_S, Hs. cbn. rewrite Hr. reflexivity.
Qed.

Lemma value_array_of_one (n : nat) (s r r1 r2 : string) (j : json) :
  skip_ws s = String "[" r ->
  starts_with "]" (skip_ws r) = false ->
  value (S n) r = Some (j, r1) ->
  skip_ws r1 = String "]" r2 ->
  value (S (S n)) s = Some (JArray [j], r2).
Proof.
  intros Hs Hne Hv Hr1. rewrite value_S, Hs.
  set (pv := value (S n)) in *. clearbody pv.
  cbn. rewrite Hne, Hv, Hr1. reflexivity.
Qed.

Lemma members_more (pv : string -> option (json * string)) (n : nat)
      (s s0 key s1 s2 s3 s4 after : string) (j : json)
      (ms : list (string * json)) :
  skip_ws s = String dquote s0 ->
  string_body s0 = Some (key, s1) ->
  skip_ws s1 = String ":" s2 ->
  pv s2 = Some (j, s3) ->
  skip_ws s3 = String "," s4 ->
  members pv n s4 = Some (ms, after) ->
  members pv (S n) s = Some ((key, j) :: ms, after).
Proof.
  intros H0 H1 H2 H3 H4 H5. cbn [members].
  rewrite H0. cbn. rewrite H1, H2. cbn. rewrite H3, H4. cbn. rewrite H5.
  reflexivity.
Qed.

Lemma members_last (pv : string -> option (json * string)) (n : nat)
      (s s0 key s1 s2 s3 s4 : string) (j : json) :
  skip_ws s = String dquote s0 ->
  string_body s0 = Some (key, s1) ->
  skip_ws s1 = String ":" s2 ->
  pv s2 = Some (j, s3) ->
  skip_ws s3 = String "}" s4 ->
  members pv (S n) s = Some ([(key, j)], s4).
Proof.
  intros H0 H1 H2 H3 H4. cbn [members].
  rewrite H0. cbn. rewrite H1, H2. cbn. rewrite H3, H4. reflexivity.
Qed.

Lemma format_variable_shape (kv : string * Var) (t : string) :
  (format_variable tables kv ++ t)%string
  = String dquote
      (quoted_text tables (fst kv)
       ++ String dquote (String ":" (String " " (Var_String (snd kv) ++ t)))).
Proof.
  unfold format_variable. rewrite Quote_shape.
  cbn [append]. rewrite !append_assoc. reflexivity.
Qed.

Lemma members_skip (pv : string -> option (json * string)) (n : nat)
      (s s' : string) :
  skip_ws s = skip_ws s' -> members pv n s = members pv n s'.
Proof.
  intro H. destruct n; cbn [members]; [reflexivity |]. rewrite H. reflexivity.
Qed.

Lemma strings_Join_cons (a b : string) (l : list string) (sep : string) :
  strings_Join (a :: b :: l) sep = (a ++ sep ++ strings_Join (b :: l) sep)%string.
Proof. reflexivity. Qed.

Lemma data_text_cons (kv kv' : string * Var) (vs : registry) (t : string) :
  (data_text tables (kv :: kv' :: vs) ++ t)%string
  = (format_variable tables kv ++ String "," (data_text tables (kv' :: vs) ++ t))%string.
Proof.
  unfold data_text, expvar_Do. cbn [map]. rewrite strings_Join_cons.
  rewrite !append_assoc. reflexivity.
Qed.

Lemma data_text_one (kv : string * Var) (t : string) :
  (data_text tables [kv] ++ t)%string = (format_variable tables kv ++ t)%string.
Proof. reflexivity. Qed.

Lemma data_text_starts (kv : string * Var) (vs : registry) (t : string) :
  exists rest : string, (data_text tables (kv :: vs) ++ t)%string = String dquote rest.
Proof.
  destruct vs as [| kv' vs].
  - rewrite data_text_one, format_variable_shape. eexists. reflexivity.
  - rewrite data_text_cons, format_variable_shape. eexists. reflexivity.
Qed.

Lemma format_variable_length (kv : string * Var) :
  (String.length (Var_String (snd kv)) + 4
   <= String.length (format_variable tables kv))%nat.
Proof.
  unfold format_variable. rewrite Quote_shape.
  cbn [String.length append]. rewrite !length_append. cbn [String.length]. lia.
Qed.

Lemma data_text_length (vs : registry) :
  (List.length vs <= String.length (data_text tables vs))%nat /\
  Forall (fun kv => (String.length (Var_String (snd kv)) + 4
                     <= String.length (data_text tables vs))%nat) vs.
Proof.
  induction vs as [| kv vs [IHn IHv]]; [split; [apply Nat.le_0_l | constructor] |].
  destruct vs as [| kv' vs].
  - pose proof (format_variable_length kv) as Hkv.
    change (data_text tables [kv]) with (format_variable tables kv).
    split; [cbn [List.length]; lia | constructor; [exact Hkv | constructor]].
  - pose proof (format_variable_length kv) as Hkv.
    assert (Hlen : String.length (data_text tables (kv :: kv' :: vs))
                   = (String.length (format_variable tables kv) + 1
                      + String.length (data_text tables (kv' :: vs)))%nat).
    { rewrite <- (append_nil_r (data_text tables (kv :: kv' :: vs))).
      rewrite data_text_cons, append_nil_r, length_append.
      cbn [String.length]. lia. }
    rewrite Hlen. split.
    + cbn [List.length] in *. lia.
    + constructor; [lia |].
      eapply Forall_impl; [| exact IHv]. cbn beta. intros a Ha. lia.
Qed.

(** The members of [data], read with [value m] and fuel [n]: one member
    for each variable, under its quoted name, with the value that the text
    of the variable is read as. *)
Lemma data_members (m : nat) :
  forall (vs : registry) (values : list json) (n : nat) (after : string),
    Forall (fun kv => printable (fst kv) = true) vs ->
    Forall2 (fun kv j =>
               exists r, value m (Var_String (snd kv)) = Some (j, r)
                         /\ skip_ws r = EmptyString) vs values ->
    vs <> [] ->
    (List.length vs <= n)%nat ->
    members (value m) n (data_text tables vs ++ String " " (String "}" after))
    = Some (combine (map (fun kv => quoted_text tables (fst kv)) vs) values,
            after).
Proof.
  induction vs as [| kv vs IH]; intros values n after Hnames Hvalues Hne Hn;
    [contradiction |].
  inversion Hnames as [| kv0 vs0 Hname Hnames']; subst.
  inversion Hvalues as [| kv0 j vs0 values' [r [Hv Hr]] Hrest]; subst.
  destruct n as [| n]; [cbn [List.length] in Hn; lia |].
  destruct vs as [| kv' vs].
  - inversion Hrest; subst.
    rewrite data_text_one, format_variable_shape. cbn [map combine].
    eapply members_last.
    + reflexivity.
    + apply string_body_quoted. exact Hname.
    + reflexivity.
    + rewrite (value_skip m _ (Var_String (snd kv) ++ String " " (String "}" after)))
        by reflexivity.
      apply value_app; [exact Hv | reflexivity].
    + rewrite (skip_ws_blank _ _ Hr). reflexivity.
  - rewrite data_text_cons, format_variable_shape.
    cbn [map combine].
    eapply members_more.
    + reflexivity.
    + apply string_body_quoted. exact Hname.
    + reflexivity.
    + rewrite (value_skip m _ (Var_String (snd kv)
                              ++ String "," (data_text tables (kv' :: vs)
                                             ++ String " " (String "}" after))))
        by reflexivity.
      apply value_app; [exact Hv | reflexivity].
    + rewrite (skip_ws_blank _ _ Hr). reflexivity.
    + apply IH; auto; [discriminate | cbn [List.length] in *; lia].
Qed.

Lemma format_request_length (collectionType time data : string) :
  String.length (format_request collectionType time data)
  = (String.length collectionType + String.length time
     + String.length data + 59)%nat.
Proof.
  cbv [format_request nl tabs2 tabs3 q].
  repeat (rewrite length_append || cbn [String.length append]). lia.
Qed.

(** A text that is a JSON text is read by [value] with any fuel above its
    length, up to whitespace. *)
Lemma parse_reads (bound : nat) (vs : registry) (values : list json) :
  Forall (fun kv => (S (String.length (Var_String (snd kv))) <= bound)%nat) vs ->
  Forall2 (fun kv j => parse (Var_String (snd kv)) = Some j) vs values ->
  Forall2 (fun kv j =>
             exists r, value bound (Var_String (snd kv)) = Some (j, r)
                       /\ skip_ws r = EmptyString) vs values.
Proof.
  intros Hb Hvalues. revert Hb.
  induction Hvalues as [| kv j vs values Hkv Hrest IH]; intro Hb; constructor.
  - inversion Hb as [| kv0 vs0 Hlen _]; subst.
    unfold parse in Hkv.
    destruct (value (S (String.length (Var_String (snd kv)))) (Var_String (snd kv)))
      as [[j' r] |] eqn:Hv; [| discriminate].
    destruct (skip_ws r) eqn:Hr; [| discriminate].
    inversion Hkv; subst. exists r. split; [| exact Hr].
    exact (value_mono _ _ _ _ Hlen Hv).
  - apply IH. inversion Hb; assumption.
Qed.

(** The request, read as JSON: an array of one object with the fields
    [type], [time] and [data]. *)
Lemma build_request_reads
      (collectionType : string) (timestamp : Time) (vs : registry)
      (values : list json) :
  plain collectionType = true ->
  Forall (fun kv => printable (fst kv) = true) vs ->
  Forall2 (fun kv j => parse (Var_String (snd kv)) = Some j) vs values ->
  parse (build_request tables collectionType timestamp vs)
  = Some (JArray
            [JObject
               [("type", JString collectionType);
                ("time", JString (Format_ANSIC timestamp));
                ("data",
                 JObject (combine (map (fun kv => quoted_text tables (fst kv)) vs)
                                  values))]]).
Proof.
  intros Htype Hnames Hvalues.
  unfold build_request. fold (data_text tables vs).
  pose proof (Format_ANSIC_plain timestamp) as Htime.
  set (tm := Format_ANSIC timestamp) in *. clearbody tm.
  destruct (data_text_length vs) as [Hcount Hlens].
  unfold parse. rewrite format_request_length.
  set (fuel := (String.length collectionType + String.length tm
                + String.length (data_text tables vs) + 55)%nat).
  replace (S (String.length collectionType + String.length tm
              + String.length (data_text tables vs) + 59))
    with (S (S (S (S (S fuel))))) by (subst fuel; lia).
  assert (Hread : Forall2 (fun kv j =>
                     exists r, value (S (S fuel)) (Var_String (snd kv)) = Some (j, r)
                               /\ skip_ws r = EmptyString) vs values).
  { apply parse_reads; [| exact Hvalues].
    eapply Forall_impl; [| exact Hlens]. cbn beta. intros kv Hkv.
    subst fuel. lia. }
  assert (Hfuel : (List.length vs <= S (S fuel))%nat) by (subst fuel; lia).
  clearbody fuel. clear Hvalues Hcount Hlens.
  cbv [format_request nl tabs2 tabs3 q]. cbn [append].
  match goal with
  | |- match value ?f ?doc with _ => _ end = Some ?J =>
      assert (Hdoc : value f doc = Some (J, EmptyString))
  end.
  { eapply value_array_of_one.
    - reflexivity.
    - reflexivity.
    - eapply value_object.
      + reflexivity.
      + reflexivity.
      + eapply members_more.
        * reflexivity.
        * reflexivity.
        * reflexivity.
        * eapply value_string; [reflexivity | apply string_body_plain; exact Htype].
        * reflexivity.
        * eapply members_more.
          -- reflexivity.
          -- reflexivity.
          -- reflexivity.
          -- eapply value_string; [reflexivity | apply string_body_plain; exact Htime].
          -- reflexivity.
          -- eapply members_last.
             ++ reflexivity.
             ++ reflexivity.
             ++ reflexivity.
             ++ destruct vs as [| kv vs].
                ** inversion Hread; subst. cbn [map combine].
                   eapply value_empty_object; reflexivity.
                ** destruct (data_text_starts kv vs
                               (String " " (String "}"
                                  (String newline (String tab (String tab
                                     (String "}" (String newline (String tab
                                        (String tab "]"))))))))))
                     as [rest Hrest].
                   eapply value_object.
                   --- reflexivity.
                   --- rewrite Hrest. reflexivity.
                   --- rewrite (members_skip _ _ _
                                  (data_text tables (kv :: vs) ++ String " " (String "}"
                                  (String newline (String tab (String tab
                                     (String "}" (String newline (String tab
                                        (String tab "]"))))))))))
                         by reflexivity.
                       apply data_members; auto. discriminate.
             ++ reflexivity.
    - reflexivity. }
  rewrite Hdoc. reflexivity.
Qed.

End ReadingTheRequest.

Section Properties.

Variable isPrint_tables : N -> bool.
Variable float_fraction : Z -> Z -> Z -> Z.

Local Abbreviation Export := (ExportVariablesWithTimestamp isPrint_tables).
Local Abbreviation RunCube := (Run isPrint_tables float_fraction).

(** *** The scheduler when export is switched off *)

(** C6.  With the flag [cube_export] off, [Run] returns at once and leaves
    the world as it found it: no export cycle, no POST, whatever the ticks. *)
Theorem Run_disabled (collectionType : string) (ticks : list Time) (w : World) :
  flagExportToCube w = false ->
  RunCube collectionType ticks w = (Returned, w) /\
  posts (snd (RunCube collectionType ticks w)) = posts w.
Proof.
  intros Hoff. unfold Run. rewrite Hoff. simpl. split; reflexivity.
Qed.

(** C10.  With the flag off, an interval that does not parse raises
    nothing: [Run] returns before [time.ParseDuration] is reached, so there
    is no exit, nothing is logged and nothing is sent. *)
Theorem Run_disabled_ignores_interval
        (collectionType : string) (ticks : list Time) (w : World) (err : error) :
  flagExportToCube w = false ->
  ParseDuration float_fraction (flagExportInterval w) = inr err ->
  fst (RunCube collectionType ticks w) = Returned /\
  fst (RunCube collectionType ticks w) <> Exited 1 /\
  logged (snd (RunCube collectionType ticks w)) = logged w /\
  posts (snd (RunCube collectionType ticks w)) = posts w.
Proof.
  intros Hoff _. unfold Run. rewrite Hoff. simpl.
  repeat split; try reflexivity. discriminate.
Qed.

(** *** The interval *)

(** C5, amended.  With the flag on, an interval that does not parse ends
    [Run] in [log.Fatalf]: the process exits with status 1 before the loop
    begins.  No tick is taken, no POST is issued, the registry is as it was
    (the counter is not even created), and the last line logged is the
    error of [time.ParseDuration]. *)
Theorem Run_bad_interval_is_fatal
        (collectionType : string) (ticks : list Time) (w : World) (err : error) :
  flagExportToCube w = true ->
  ParseDuration float_fraction (flagExportInterval w) = inr err ->
  fst (RunCube collectionType ticks w) = Exited 1 /\
  posts (snd (RunCube collectionType ticks w)) = posts w /\
  vars (snd (RunCube collectionType ticks w)) = vars w /\
  RunCube collectionType ticks w = RunCube collectionType [] w /\
  last (logged (snd (RunCube collectionType ticks w))) (mkLogEntry EmptyString [])
  = mkLogEntry "Error parsing duration %v: %v"
               [A_string (flagExportInterval w); A_error err].
Proof.
  intros Hon Hbad. unfold Run. rewrite Hon. simpl. rewrite Hbad. simpl.
  repeat split; try reflexivity.
  apply last_last.
Qed.

(** *** The transport *)

Lemma send_result (putUrl request : string) (w : World) :
  fst (send putUrl request w)
  = match collector w (posts w) (mkRequest putUrl "application/json" request) with
    | PostError err => Some err
    | Response _ => None
    end.
Proof.
  unfold send, http_Post.
  destruct (collector w (posts w) _); reflexivity.
Qed.

Lemma send_posts (putUrl request : string) (w : World) :
  posts (snd (send putUrl request w))
  = (posts w ++ [mkRequest putUrl "application/json" request])%list.
Proof.
  unfold send, http_Post.
  destruct (collector w (posts w) _); reflexivity.
Qed.

Lemma send_vars (putUrl request : string) (w : World) :
  vars (snd (send putUrl request w)) = vars w.
Proof.
  unfold send, http_Post.
  destruct (collector w (posts w) _); reflexivity.
Qed.

(** C2, amended.  [send] returns an error exactly when the call of
    [http.Post] returned one, and then that error; when [http.Post]
    returned a response, of any status code, a 4xx or a 5xx as well, [send]
    returns success.  Either way [http.Post] was called exactly once, with
    the payload, as [application/json].  The error need not come from the
    connection: a URL with a control character is refused when it is
    parsed, whatever an attempt to reach the collector would have given,
    and [send] returns that error of [url.Parse]. *)
Theorem send_fails_iff_post_fails (putUrl payload : string) (w : World) :
  let r := mkRequest putUrl "application/json" payload in
  (forall err, fst (send putUrl payload w) = Some err
               <-> collector w (posts w) r = PostError err) /\
  (forall code, collector w (posts w) r = Response code ->
                fst (send putUrl payload w) = None) /\
  posts (snd (send putUrl payload w)) = (posts w ++ [r])%list /\
  (forall attempt : list Request -> Request -> PostResult,
     collector w = parse_first attempt ->
     stringContainsCTLByte (before_fragment putUrl) = true ->
     fst (send putUrl payload w)
     = Some (url_Error "parse" (before_fragment putUrl)
                       "net/url: invalid control character in URL")).
Proof.
  intro r. rewrite send_result, send_posts. fold r.
  repeat split.
  - destruct (collector w (posts w) r); intro H; inversion H; reflexivity.
  - intro H. rewrite H. reflexivity.
  - intros code H. rewrite H. reflexivity.
  - intros attempt Hw Hctl. rewrite Hw. unfold parse_first.
    subst r. cbn [req_url]. rewrite Hctl. reflexivity.
Qed.

(** *** One export *)

Lemma Export_failure
      (collectionType putUrl : string) (timestamp : Time) (w : World)
      (err : error) :
  collector w (posts w)
            (mkRequest putUrl "application/json"
               (build_request isPrint_tables collectionType timestamp (vars w)))
  = PostError err ->
  fst (Export collectionType putUrl timestamp w) = Some err /\
  logged (snd (Export collectionType putUrl timestamp w))
  = (logged w ++
     [mkLogEntry "Error POSTing events to Cube collector: %v" [A_error err];
      mkLogEntry "The request we tried to post: %v"
        [A_string (build_request isPrint_tables collectionType timestamp (vars w))]])%list.
Proof.
  intro Hfail.
  unfold ExportVariablesWithTimestamp, send, http_Post.
  rewrite Hfail. simpl. rewrite <- app_assoc. split; reflexivity.
Qed.

(** C4, amended.  When the POST of a single export fails, the export
    returns the error of [http.Post] itself, unchanged; the payload is not
    in the returned error but in the log, whose last two lines are the
    error and the request that was tried.  The call returns, and the world
    it leaves is a world like any other: a second export that fails right
    after the first returns its own error and logs its own payload in the
    same way. *)
Theorem Export_failure_returns_error_and_logs_payload
        (collectionType putUrl : string) (timestamp : Time) (w : World)
        (err : error) :
  let payload := build_request isPrint_tables collectionType timestamp (vars w) in
  let w1 := snd (Export collectionType putUrl timestamp w) in
  collector w (posts w) (mkRequest putUrl "application/json" payload)
  = PostError err ->
  fst (Export collectionType putUrl timestamp w) = Some err /\
  logged w1
  = (logged w ++
     [mkLogEntry "Error POSTing events to Cube collector: %v" [A_error err];
      mkLogEntry "The request we tried to post: %v" [A_string payload]])%list /\
  forall (collectionType' putUrl' : string) (timestamp' : Time) (err' : error),
    let payload' :=
      build_request isPrint_tables collectionType' timestamp' (vars w1) in
    collector w1 (posts w1) (mkRequest putUrl' "application/json" payload')
    = PostError err' ->
    fst (Export collectionType' putUrl' timestamp' w1) = Some err' /\
    logged (snd (Export collectionType' putUrl' timestamp' w1))
    = (logged w ++
       [mkLogEntry "Error POSTing events to Cube collector: %v" [A_error err];
        mkLogEntry "The request we tried to post: %v" [A_string payload];
        mkLogEntry "Error POSTing events to Cube collector: %v" [A_error err'];
        mkLogEntry "The request we tried to post: %v" [A_string payload']])%list.
Proof.
  intros payload w1 Hfail.
  destruct (Export_failure collectionType putUrl timestamp w err Hfail)
    as [Hres Hlog].
  split; [exact Hres |]. split; [exact Hlog |].
  intros collectionType' putUrl' timestamp' err' payload' Hfail'.
  destruct (Export_failure collectionType' putUrl' timestamp' w1 err' Hfail')
    as [Hres' Hlog'].
  split; [exact Hres' |].
  rewrite Hlog'. subst w1. rewrite Hlog, <- app_assoc. reflexivity.
Qed.

(** C8, amended.  A single export changes nothing of the registry, so the
    export counter is as before, and nothing of the flags, the collector or
    the clock.  What it does is the one POST of the payload it built and,
    when that POST fails, two lines of log; a response body it received is
    closed again. *)
Theorem Export_frame
        (collectionType putUrl : string) (timestamp : Time) (w : World) :
  let payload := build_request isPrint_tables collectionType timestamp (vars w) in
  let r := mkRequest putUrl "application/json" payload in
  let w' := snd (Export collectionType putUrl timestamp w) in
  vars w' = vars w /\
  ExportCounter w' = ExportCounter w /\
  posts w' = (posts w ++ [r])%list /\
  logged w' = (logged w ++
    match collector w (posts w) r with
    | PostError err =>
        [mkLogEntry "Error POSTing events to Cube collector: %v" [A_error err];
         mkLogEntry "The request we tried to post: %v" [A_string payload]]
    | Response _ => []
    end)%list /\
  open_bodies w' = open_bodies w /\
  collector w' = collector w /\
  clock w' = clock w /\
  (flagCollectorHost w', flagCollectorPort w',
   flagExportInterval w', flagExportToCube w')
  = (flagCollectorHost w, flagCollectorPort w,
     flagExportInterval w, flagExportToCube w) /\
  snd (ExportVariables isPrint_tables collectionType putUrl w)
  = snd (Export collectionType putUrl (time_Now w) w).
Proof.
  intros payload r w'. subst w'.
  unfold ExportCounter, ExportVariables, ExportVariablesWithTimestamp,
    send, http_Post.
  fold payload. fold r.
  destruct (collector w (posts w) r); simpl;
    rewrite <- ?app_assoc, ?app_nil_r; repeat split; reflexivity.
Qed.

(** C9.  [ExportVariables] is [ExportVariablesWithTimestamp] at the current
    system time: the same result and the same world after it; and the
    export with a timestamp is [ExportVariables] but for the time it is
    given. *)
Theorem ExportVariables_is_Export_now
        (collectionType putUrl : string) (w : World) :
  ExportVariables isPrint_tables collectionType putUrl w
  = ExportVariables_spec isPrint_tables collectionType putUrl w /\
  ExportVariables isPrint_tables collectionType putUrl w
  = Export collectionType putUrl (time_Now w) w.
Proof.
  split; reflexivity.
Qed.

(** *** The loop and its counter *)

Lemma to_int64_small (x : Z) :
  - two63 <= x <= MaxInt64 -> to_int64 x = x.
Proof.
  unfold to_int64, MaxInt64, two64, two63. intro H.
  rewrite Z.mod_small; lia.
Qed.

Lemma expvar_Get_Int_Add (name : string) (delta c : Z) (vs : registry) :
  expvar_Get name vs = Some (Var_Int c) ->
  expvar_Get name (Int_Add name delta vs) = Some (Var_Int (to_int64 (c + delta))).
Proof.
  induction vs as [| [k v] rest IH]; simpl; [discriminate |].
  destruct (String.eqb k name) eqn:Hk.
  - intro H. inversion H; subst. simpl. rewrite Hk. reflexivity.
  - intro H. simpl. rewrite Hk. auto.
Qed.

Lemma Export_vars (collectionType putUrl : string) (t : Time) (w : World) :
  vars (snd (Export collectionType putUrl t w)) = vars w.
Proof. apply send_vars. Qed.

Lemma Export_posts (collectionType putUrl : string) (t : Time) (w : World) :
  posts (snd (Export collectionType putUrl t w))
  = (posts w ++ [mkRequest putUrl "application/json"
                   (build_request isPrint_tables collectionType t (vars w))])%list.
Proof. apply send_posts. Qed.

(** One tick: the cycle of the tick is sent with the registry as it was,
    and the counter is one more afterwards, whatever the POST gave. *)
Lemma Run_tick_spec (collectionType putUrl : string) (now : Time) (w : World) :
  vars (Run_tick isPrint_tables collectionType putUrl now w)
  = Int_Add "CubeExports" 1 (vars w) /\
  posts (Run_tick isPrint_tables collectionType putUrl now w)
  = (posts w ++ [mkRequest putUrl "application/json"
                   (build_request isPrint_tables collectionType now (vars w))])%list.
Proof.
  unfold Run_tick.
  pose proof (Export_vars collectionType putUrl now w) as Hv.
  pose proof (Export_posts collectionType putUrl now w) as Hp.
  destruct (Export collectionType putUrl now w) as [[e |] w1];
    simpl in *; rewrite Hv, Hp; split; reflexivity.
Qed.

Lemma Run_loop_app (collectionType putUrl : string) (t1 t2 : list Time) (w : World) :
  Run_loop isPrint_tables collectionType putUrl (t1 ++ t2)%list w
  = Run_loop isPrint_tables collectionType putUrl t2
             (Run_loop isPrint_tables collectionType putUrl t1 w).
Proof.
  revert w. induction t1 as [| now later IH]; intro w; simpl; auto.
Qed.

Lemma Run_loop_counter (collectionType putUrl : string) (ticks : list Time) :
  forall (w : World) (c : Z),
    ExportCounter w = Some (Var_Int c) ->
    - two63 <= c ->
    c + Z.of_nat (List.length ticks) <= MaxInt64 ->
    ExportCounter (Run_loop isPrint_tables collectionType putUrl ticks w)
    = Some (Var_Int (c + Z.of_nat (List.length ticks))) /\
    List.length (posts (Run_loop isPrint_tables collectionType putUrl ticks w))
    = (List.length (posts w) + List.length ticks)%nat.
Proof.
  induction ticks as [| now later IH]; intros w c Hc Hlo Hhi.
  - simpl. rewrite Z.add_0_r, Nat.add_0_r. auto.
  - cbn [Run_loop]. cbn [List.length] in *.
    destruct (Run_tick_spec collectionType putUrl now w) as [Hv Hp].
    destruct (IH (Run_tick isPrint_tables collectionType putUrl now w) (c + 1))
      as [Hc' Hn'].
    + unfold ExportCounter. rewrite Hv.
      rewrite (expvar_Get_Int_Add _ 1 c _ Hc).
      rewrite to_int64_small; [reflexivity | lia].
    + lia.
    + lia.
    + rewrite Hc', Hn', Hp, length_app. simpl. split; [f_equal; f_equal |]; lia.
Qed.

Lemma expvar_Get_insert_sorted (name : string) (v : Var) (vs : registry) :
  expvar_Get name vs = None ->
  expvar_Get name (insert_sorted name v vs) = Some v.
Proof.
  induction vs as [| [k v'] rest IH]; simpl.
  - rewrite String.eqb_refl. reflexivity.
  - destruct (String.eqb k name) eqn:Hk; [discriminate |].
    intro Hrest. destruct (String.ltb name k); simpl.
    + rewrite String.eqb_refl. reflexivity.
    + rewrite Hk. auto.
Qed.

(** X12.  [Run] from its start: with export on, an interval that parses and
    is positive, and the name of the counter free, [Run] is in its loop, has
    sent one request for each tick, and the counter shows the number of
    ticks, a number within the range of an [int64]. *)
Lemma Run_counts_ticks
      (collectionType : string) (ticks : list Time) (w : World) (interval : Z) :
  flagExportToCube w = true ->
  ParseDuration float_fraction (flagExportInterval w) = inl interval ->
  0 < interval ->
  expvar_Get "CubeExports" (vars w) = None ->
  Z.of_nat (List.length ticks) <= MaxInt64 ->
  fst (RunCube collectionType ticks w) = Looping /\
  ExportCounter (snd (RunCube collectionType ticks w))
  = Some (Var_Int (Z.of_nat (List.length ticks))) /\
  List.length (posts (snd (RunCube collectionType ticks w)))
  = (List.length (posts w) + List.length ticks)%nat.
Proof.
  intros Hon Hparse Hpos Hfree Hmax.
  unfold Run. rewrite Hon. cbn [negb].
  cbn [log_Printf set_logged flagExportInterval]. rewrite Hparse.
  unfold expvar_NewInt, expvar_Publish.
  cbn [vars log_Printf set_logged]. rewrite Hfree.
  unfold time_Tick. destruct (interval <=? 0) eqn:Hle;
    [apply Z.leb_le in Hle; lia |].
  cbn [fst snd]. split; [reflexivity |].
  match goal with
  | |- context [Run_loop _ _ ?url _ ?w0] =>
      destruct (Run_loop_counter collectionType url ticks w0 0) as [Hc Hn]
  end.
  - unfold ExportCounter. cbn [set_vars vars].
    apply expvar_Get_insert_sorted. exact Hfree.
  - unfold two63. lia.
  - lia.
  - split; [exact Hc | exact Hn].
Qed.

(** *** The rendered time *)

Lemma Format_ANSIC_wall (t u : Time) :
  unixSec t = unixSec u -> zoneOffset t = zoneOffset u ->
  Format_ANSIC t = Format_ANSIC u.
Proof.
  intros Hs Hz.
  unfold Format_ANSIC, Weekday, Month, Day, Year, Hour, Minute, Second,
    wall_days, wall_seconds.
  rewrite Hs, Hz. reflexivity.
Qed.

(** C7, amended.  The time in the event is [Format_ANSIC] of the timestamp
    and nothing else: two exports of the same instant in the same location,
    with the same event type and the same variables, send the same request,
    whatever else differs between the two worlds (flags, log, traffic,
    collector, clock).  The text has the fixed layout of [ANSIC], with the
    English names of [time], for every time. *)
Theorem rendered_time_is_deterministic
        (t u : Time) (collectionType putUrl : string) (w1 w2 : World) :
  unixSec t = unixSec u ->
  zoneOffset t = zoneOffset u ->
  vars w1 = vars w2 ->
  Format_ANSIC t = Format_ANSIC u /\
  is_ANSIC (Format_ANSIC t) = true /\
  build_request isPrint_tables collectionType t (vars w1)
  = format_request collectionType (Format_ANSIC t)
      (strings_Join (expvar_Do (format_variable isPrint_tables) (vars w1)) ",") /\
  exists r : Request,
    posts (snd (Export collectionType putUrl t w1)) = (posts w1 ++ [r])%list /\
    posts (snd (Export collectionType putUrl u w2)) = (posts w2 ++ [r])%list.
Proof.
  intros Hs Hz Hv.
  pose proof (Format_ANSIC_wall t u Hs Hz) as Hf.
  repeat split; auto using Format_ANSIC_is_ANSIC.
  eexists. rewrite !Export_posts. split; [reflexivity |].
  unfold build_request. rewrite Hf, Hv. reflexivity.
Qed.

(** *** The request as JSON *)

(** C1, amended.  For an event type without quotes, backslashes and control
    characters, variables with names of printable ASCII characters, and
    values that are JSON texts already, the request is a JSON array of one
    object with the fields [type], [time] and [data], in this order; [data]
    has one member for each variable, in the order of the registry: its key
    is the name as [%q] writes it between the quotes (the name itself, if
    it has no quote and no backslash), and its value is what the text of
    the variable says, which stands in the request as it is, after the key,
    a colon and a space.  With no variables [data] is the empty object. *)
Theorem request_is_one_event
        (collectionType : string) (timestamp : Time) (vs : registry)
        (values : list json) :
  Json.plain collectionType = true ->
  Forall (fun kv => Json.printable (fst kv) = true) vs ->
  Forall2 (fun kv j => Json.parse (Var_String (snd kv)) = Some j) vs values ->
  let keys := map (fun kv => quoted_text isPrint_tables (fst kv)) vs in
  Json.parse (build_request isPrint_tables collectionType timestamp vs)
  = Some (JArray
            [JObject
               [("type", JString collectionType);
                ("time", JString (Format_ANSIC timestamp));
                ("data", JObject (combine keys values))]]) /\
  List.length (combine keys values) = List.length vs /\
  map fst (combine keys values) = keys /\
  map snd (combine keys values) = values /\
  (forall kv, In kv vs ->
     Quote isPrint_tables (fst kv)
     = String dquote (quoted_text isPrint_tables (fst kv)
                      ++ String dquote EmptyString) /\
     (Json.plain (fst kv) = true ->
      quoted_text isPrint_tables (fst kv) = fst kv)) /\
  build_request isPrint_tables collectionType timestamp vs
  = format_request collectionType (Format_ANSIC timestamp)
      (strings_Join
         (map (fun kv => Quote isPrint_tables (fst kv) ++ ": "
                         ++ Var_String (snd kv)) vs) ",") /\
  (vs = [] -> combine keys values = []).
Proof.
  intros Htype Hnames Hvalues keys.
  assert (Hlen : List.length keys = List.length values).
  { subst keys. rewrite length_map. exact (Forall2_length Hvalues). }
  split; [exact (build_request_reads isPrint_tables collectionType timestamp
                   vs values Htype Hnames Hvalues) |].
  split; [rewrite length_combine, <- Hlen, Nat.min_id; subst keys;
          apply length_map |].
  split; [| split; [| split; [| split]]].
  - clear - Hlen. revert values Hlen.
    induction keys as [| k keys IH]; intros [| v values] Hlen;
      try discriminate; [reflexivity |].
    cbn [combine map fst]. f_equal. apply IH. simpl in Hlen. lia.
  - clear - Hlen. revert values Hlen.
    induction keys as [| k keys IH]; intros [| v values] Hlen;
      try discriminate; [reflexivity |].
    cbn [combine map snd]. f_equal. apply IH. simpl in Hlen. lia.
  - intros kv Hin. split; [reflexivity |].
    rewrite Forall_forall in Hnames.
    apply quoted_text_plain. auto.
  - reflexivity.
  - intros ->. reflexivity.
Qed.

(** With no variables, [data] is the empty object. *)
Lemma empty_snapshot_has_empty_data (collectionType : string) (timestamp : Time) :
  Json.plain collectionType = true ->
  Json.parse (build_request isPrint_tables collectionType timestamp [])
  = Some (JArray
            [JObject
               [("type", JString collectionType);
                ("time", JString (Format_ANSIC timestamp));
                ("data", JObject [])]]).
Proof.
  intro Htype.
  exact (build_request_reads isPrint_tables collectionType timestamp [] []
           Htype (Forall_nil _) (Forall2_nil _)).
Qed.

End Properties.

Lemma Run_disabled_witness :
  Run no_tables exact_fraction "myevents" [mkTime 10 0 0]
      (sample_world "10s" false unreachable)
  = (Returned, sample_world "10s" false unreachable).
Proof.
  apply (Run_disabled no_tables exact_fraction "myevents" [mkTime 10 0 0]
                      (sample_world "10s" false unreachable)).
  reflexivity.
Defined.

Lemma Run_disabled_ignores_interval_witness :
  fst (Run no_tables exact_fraction "myevents" []
           (sample_world "abc" false unreachable)) = Returned.
Proof.
  apply (Run_disabled_ignores_interval no_tables exact_fraction "myevents" []
           (sample_world "abc" false unreachable)
           (time_invalid_duration "abc")).
  - reflexivity.
  - vm_compute. reflexivity.
Defined.

(** *** Counterexamples and witnesses *)

(** C5, as stated, fails when export is switched off: the interval [abc]
    does not parse, and [Run] returns without any exit. *)
Lemma Run_bad_interval_not_fatal_when_disabled :
  ParseDuration exact_fraction
                (flagExportInterval (sample_world "abc" false unreachable))
  = inr (time_invalid_duration "abc") /\
  fst (Run no_tables exact_fraction "myevents" five_ticks
           (sample_world "abc" false unreachable)) = Returned /\
  fst (Run no_tables exact_fraction "myevents" five_ticks
           (sample_world "abc" false unreachable)) <> Exited 1.
Proof.
  repeat split; try (vm_compute; reflexivity). vm_compute. discriminate.
Qed.

Lemma Run_bad_interval_is_fatal_witness :
  fst (Run no_tables exact_fraction "myevents" five_ticks
           (sample_world "abc" true unreachable)) = Exited 1.
Proof.
  apply (Run_bad_interval_is_fatal no_tables exact_fraction "myevents" five_ticks
           (sample_world "abc" true unreachable) (time_invalid_duration "abc")).
  - reflexivity.
  - vm_compute. reflexivity.
Defined.

(** C2, as stated, fails: with a tab in the URL [send] returns an error,
    and the attempt to reach the collector would have been answered with a
    200.  The error is the one of [url.Parse], and no connection failed. *)
Lemma unparsable_url_is_not_a_connection_failure :
  ~ fails_only_at_connection_level.
Proof.
  unfold fails_only_at_connection_level. intro H.
  destruct (H (answering 200) tabbed_url "[]"
              (sample_world "10s" true (parse_first (answering 200)))
              eq_refl) as [Hfails _].
  destruct Hfails as [err Herr].
  - eexists. vm_compute. reflexivity.
  - vm_compute in Herr. discriminate Herr.
Qed.

Lemma send_fails_iff_post_fails_witness :
  fst (send sample_url "[]" (sample_world "10s" true (answering 500))) = None /\
  fst (send tabbed_url "[]"
            (sample_world "10s" true (parse_first (answering 200))))
  = Some (url_Error "parse" tabbed_url
                    "net/url: invalid control character in URL").
Proof.
  split.
  - apply (proj1 (proj2 (send_fails_iff_post_fails sample_url "[]"
                           (sample_world "10s" true (answering 500)))) 500).
    reflexivity.
  - assert (Hw : collector (sample_world "10s" true (parse_first (answering 200)))
                 = parse_first (answering 200)) by reflexivity.
    assert (Hctl : stringContainsCTLByte (before_fragment tabbed_url) = true)
      by (vm_compute; reflexivity).
    exact (proj2 (proj2 (proj2 (send_fails_iff_post_fails tabbed_url "[]"
                                  (sample_world "10s" true
                                     (parse_first (answering 200))))))
                 (answering 200) Hw Hctl).
Defined.

(** Two exports that fail alike return the same error for two different
    payloads. *)
Lemma same_error_for_two_payloads :
  let w := sample_world "10s" true unreachable in
  let t := mkTime 1700000000 0 0 in
  let e := url_Error "Post" sample_url "connection refused" in
  fst (ExportVariablesWithTimestamp no_tables "a" sample_url t w) = Some e /\
  fst (ExportVariablesWithTimestamp no_tables "b" sample_url t w) = Some e /\
  build_request no_tables "a" t (vars w) <> build_request no_tables "b" t (vars w).
Proof.
  repeat split; try (vm_compute; reflexivity).
  vm_compute. discriminate.
Qed.

(** C4, as stated, fails: the error returned does not hold the payload.  No
    function finds the payload in it. *)
Lemma returned_error_does_not_carry_payload :
  ~ exists payload_of : error -> string, error_carries_payload payload_of.
Proof.
  intros [payload_of H].
  destruct same_error_for_two_payloads as [Ha [Hb Hne]].
  apply Hne.
  rewrite <- (H _ _ _ _ _ _ Ha), <- (H _ _ _ _ _ _ Hb). reflexivity.
Qed.

Lemma Export_failure_returns_error_and_logs_payload_witness :
  fst (ExportVariablesWithTimestamp no_tables "myevents" sample_url
         (mkTime 1700000000 0 0) (sample_world "10s" true unreachable))
  = Some (url_Error "Post" sample_url "connection refused").
Proof.
  apply (Export_failure_returns_error_and_logs_payload no_tables
           "myevents" sample_url (mkTime 1700000000 0 0)
           (sample_world "10s" true unreachable)).
  reflexivity.
Defined.

(** C8, as stated, fails when the POST fails: the export has written to the
    log as well. *)
Lemma failed_export_also_logs :
  ~ only_effect_is_the_post no_tables "myevents" sample_url
      (mkTime 1700000000 0 0) (sample_world "10s" true unreachable).
Proof.
  unfold only_effect_is_the_post. intro H.
  apply (f_equal logged) in H. vm_compute in H. discriminate.
Qed.

(** C7, as stated, fails: one instant read in two locations is written as
    two different times, since [ANSIC] shows the wall clock of the location
    and no zone. *)
Lemma same_instant_two_zones :
  let t := mkTime 1700000000 0 0 in
  let u := mkTime 1700000000 0 3600 in
  Time_Equal t u = true /\
  Format_ANSIC t = "Tue Nov 14 22:13:20 2023" /\
  Format_ANSIC u = "Tue Nov 14 23:13:20 2023" /\
  Format_ANSIC t <> Format_ANSIC u /\
  build_request no_tables "myevents" t [] <> build_request no_tables "myevents" u [].
Proof.
  repeat split; try (vm_compute; reflexivity); vm_compute; discriminate.
Qed.

Lemma rendered_time_is_deterministic_witness :
  Format_ANSIC (mkTime 1700000000 0 3600) = Format_ANSIC (mkTime 1700000000 999 3600) /\
  is_ANSIC (Format_ANSIC (mkTime 1700000000 0 3600)) = true.
Proof.
  assert (Hs : unixSec (mkTime 1700000000 0 3600) = unixSec (mkTime 1700000000 999 3600))
    by reflexivity.
  assert (Hz : zoneOffset (mkTime 1700000000 0 3600) = zoneOffset (mkTime 1700000000 999 3600))
    by reflexivity.
  assert (Hv : vars (sample_world "10s" true unreachable)
               = vars (sample_world "1m" false (answering 200)))
    by reflexivity.
  pose proof (rendered_time_is_deterministic no_tables _ _ "myevents" sample_url
                _ _ Hs Hz Hv) as H.
  split; [exact (proj1 H) | exact (proj1 (proj2 H))].
Defined.

(** C1, as stated, fails for an event type with a quote in it: the type is
    put between quotes as it is, and the request that is sent is no JSON
    text.  Without the quote it is one. *)
Lemma quote_in_event_type_breaks_request :
  let bad := String "a" (String dquote "b") in
  let w := sample_world "10s" true (answering 200) in
  let t := mkTime 1700000000 0 0 in
  posts (snd (ExportVariablesWithTimestamp no_tables bad sample_url t w))
  = [mkRequest sample_url "application/json" (build_request no_tables bad t (vars w))] /\
  Json.parse (build_request no_tables bad t (vars w)) = None /\
  Json.parse (build_request no_tables "ab" t (vars w))
  = Some (JArray
            [JObject
               [("type", JString "ab");
                ("time", JString "Tue Nov 14 22:13:20 2023");
                ("data", JObject [("cmdline", JArray []);
                                  ("requests", JNumber "42")])]]).
Proof.
  repeat split; vm_compute; reflexivity.
Qed.

(** The other conditions of the amended C1 are needed as well: a name with
    a control character that JSON has no escape for, and a value that is
    no JSON text, each give a request that is no JSON text. *)
Example request_needs_its_conditions :
  let t := mkTime 1700000000 0 0 in
  Json.parse (build_request no_tables "myevents" t
                [(String (ascii_of_N 7) "bell", Var_Int 1)]) = None /\
  Json.parse (build_request no_tables "myevents" t
                [("greeting", Var_Other "hello")]) = None /\
  Json.parse (build_request no_tables "a\" t []) = None.
Proof. repeat split; vm_compute; reflexivity. Qed.

Lemma request_is_one_event_witness :
  Json.parse (build_request no_tables "myevents" (mkTime 1700000000 0 0)
                [("cmdline", Var_Other "[]"); ("requests", Var_Int 42)])
  = Some (JArray
            [JObject
               [("type", JString "myevents");
                ("time", JString (Format_ANSIC (mkTime 1700000000 0 0)));
                ("data", JObject [("cmdline", JArray []);
                                  ("requests", JNumber "42")])]]).
Proof.
  assert (Htype : Json.plain "myevents" = true) by reflexivity.
  assert (Hnames : Forall (fun kv : string * Var => Json.printable (fst kv) = true)
                     [("cmdline", Var_Other "[]"); ("requests", Var_Int 42)])
    by (repeat constructor).
  assert (Hvalues : Forall2 (fun (kv : string * Var) j =>
                               Json.parse (Var_String (snd kv)) = Some j)
                      [("cmdline", Var_Other "[]"); ("requests", Var_Int 42)]
                      [JArray []; JNumber "42"])
    by (repeat constructor).
  exact (proj1 (request_is_one_event no_tables "myevents" (mkTime 1700000000 0 0)
                  _ _ Htype Hnames Hvalues)).
Defined.

(** *** The model on examples *)

Example FormatInt_examples :
  FormatInt 0 = "0" /\ FormatInt 1080 = "1080" /\ FormatInt (-42) = "-42".
Proof. repeat split; reflexivity. Qed.

Example Format_ANSIC_examples :
  Format_ANSIC (mkTime 0 0 0) = "Thu Jan  1 00:00:00 1970" /\
  Format_ANSIC (mkTime 951782400 0 0) = "Tue Feb 29 00:00:00 2000" /\
  Format_ANSIC (mkTime 1709251199 0 0) = "Thu Feb 29 23:59:59 2024" /\
  Format_ANSIC (mkTime (-1) 0 0) = "Wed Dec 31 23:59:59 1969" /\
  Format_ANSIC (mkTime 1700000000 0 (-18000)) = "Tue Nov 14 17:13:20 2023".
Proof. repeat split; vm_compute; reflexivity. Qed.

Example ParseDuration_examples :
  ParseDuration exact_fraction "10s" = inl 10000000000 /\
  ParseDuration exact_fraction "1h30m" = inl 5400000000000 /\
  ParseDuration exact_fraction "-5ms" = inl (-5000000) /\
  ParseDuration exact_fraction "0" = inl 0 /\
  ParseDuration exact_fraction "abc" = inr (time_invalid_duration "abc") /\
  ParseDuration exact_fraction "10" = inr (time_missing_unit "10") /\
  ParseDuration exact_fraction "10x" = inr (time_unknown_unit "x" "10x") /\
  ParseDuration exact_fraction EmptyString = inr (time_invalid_duration EmptyString).
Proof. repeat split; vm_compute; reflexivity. Qed.

Example Quote_examples :
  Quote no_tables "cmdline" = String dquote ("cmdline" ++ String dquote EmptyString) /\
  Quote no_tables (String "a" (String dquote "b"))
  = String dquote ("a\" ++ String dquote ("b" ++ String dquote EmptyString)) /\
  Quote no_tables (String newline (String (ascii_of_N 7) (String (ascii_of_N 1) EmptyString)))
  = String dquote ("\n\a\x01" ++ String dquote EmptyString).
Proof. repeat split; vm_compute; reflexivity. Qed.

Example Json_parse_examples :
  Json.parse "[1, 2.5e3, true, null, {}]"
  = Some (JArray [JNumber "1"; JNumber "2.5e3"; JTrue; JNull; JObject []]) /\
  Json.parse "01" = None /\
  Json.parse "[1,]" = None /\
  Json.parse "{} x" = None /\
  Json.parse "hello" = None.
Proof. repeat split; vm_compute; reflexivity. Qed.

(** Five ticks against a collector that fails every other time: five
    requests, three failures logged with their payloads, and the counter at
    five. *)
Example Run_five_ticks :
  let w := sample_world "10s" true flaky in
  let end_of_run := Run no_tables exact_fraction "myevents" five_ticks w in
  fst end_of_run = Looping /\
  ExportCounter (snd end_of_run) = Some (Var_Int 5) /\
  List.length (posts (snd end_of_run)) = 5%nat /\
  List.length (logged (snd end_of_run)) = 11%nat /\
  map Json.parse (map req_body (posts (snd end_of_run)))
  = map (fun '(time, count) =>
           Some (JArray
                   [JObject
                      [("type", JString "myevents");
                       ("time", JString time);
                       ("data", JObject [("CubeExports", JNumber count);
                                         ("cmdline", JArray []);
                                         ("requests", JNumber "42")])]]))
        [("Tue Nov 14 22:13:30 2023", "0"); ("Tue Nov 14 22:13:40 2023", "1");
         ("Tue Nov 14 22:13:50 2023", "2"); ("Tue Nov 14 22:14:00 2023", "3");
         ("Tue Nov 14 22:14:10 2023", "4")].
Proof. repeat split; vm_compute; reflexivity. Qed.

(* ===================================================================== *)
(** ** More of [Run] and of the loop *)
(* ===================================================================== *)

Section Loop.

Variable isPrint_tables : N -> bool.
Variable float_fraction : Z -> Z -> Z -> Z.

Local Abbreviation Tick := (Run_tick isPrint_tables).
Local Abbreviation Loop := (Run_loop isPrint_tables).
Local Abbreviation RunCube := (Run isPrint_tables float_fraction).

(** The world after one tick, field by field. *)
Lemma Run_tick_world (collectionType putUrl : string) (now : Time) (w : World) :
  let r := mkRequest putUrl "application/json"
             (build_request isPrint_tables collectionType now (vars w)) in
  Tick collectionType putUrl now w
  = mkWorld (flagCollectorHost w) (flagCollectorPort w) (flagExportInterval w)
            (flagExportToCube w)
            (Int_Add "CubeExports" 1 (vars w))
            (logged w ++
             match collector w (posts w) r with
             | PostError err =>
                 [mkLogEntry "Error POSTing events to Cube collector: %v"
                    [A_error err];
                  mkLogEntry "The request we tried to post: %v"
                    [A_string (req_body r)];
                  mkLogEntry "Error exporting variables for %v" [A_Time now]]
             | Response _ => []
             end)%list
            (posts w ++ [r])%list
            (collector w) (open_bodies w) (clock w).
Proof.
  intro r. subst r.
  destruct w as [host port interval enabled vs lg ps net open clk].
  unfold Run_tick, ExportVariablesWithTimestamp, send, http_Post.
  cbn [vars posts collector logged open_bodies clock flagCollectorHost
       flagCollectorPort flagExportInterval flagExportToCube].
  generalize (build_request isPrint_tables collectionType now vs) as body.
  intro body.
  destruct (net ps _);
    unfold set_vars, log_Printf, set_logged, Body_Close, set_traffic; simpl;
    repeat rewrite <- app_assoc; rewrite ?app_nil_r; reflexivity.
Qed.

Lemma Int_Add_keys (name : string) (delta : Z) (vs : registry) :
  map fst (Int_Add name delta vs) = map fst vs.
Proof.
  induction vs as [| [k v] rest IH]; [reflexivity |].
  cbn [Int_Add]. destruct (String.eqb k name).
  - destruct v; reflexivity.
  - cbn [map fst]. rewrite IH. reflexivity.
Qed.

Lemma Int_Add_other (name other : string) (delta : Z) (vs : registry) :
  other <> name ->
  expvar_Get other (Int_Add name delta vs) = expvar_Get other vs.
Proof.
  intro Hne. induction vs as [| [k v] rest IH]; [reflexivity |].
  cbn [Int_Add]. destruct (String.eqb k name) eqn:Hk.
  - apply String.eqb_eq in Hk. subst k.
    assert (Hno : String.eqb name other = false)
      by (apply String.eqb_neq; congruence).
    destruct v; cbn [expvar_Get]; rewrite Hno; reflexivity.
  - cbn [expvar_Get]. rewrite IH. reflexivity.
Qed.

Lemma expvar_Get_keys (name : string) (vs vs' : registry) :
  map fst vs = map fst vs' ->
  expvar_Get name vs = None -> expvar_Get name vs' = None.
Proof.
  revert vs'. induction vs as [| [k v] rest IH]; intros [| [k' v'] rest'] Hkeys;
    try discriminate; [reflexivity |].
  cbn [map fst] in Hkeys. inversion Hkeys; subst.
  cbn [expvar_Get]. destruct (String.eqb k' name); [discriminate | eauto].
Qed.

(** What the loop leaves as it was. *)
Lemma Run_loop_unchanged (collectionType putUrl : string) (ticks : list Time) (w : World) :
  let w' := Loop collectionType putUrl ticks w in
  flags_of w' = flags_of w /\
  collector w' = collector w /\
  clock w' = clock w /\
  open_bodies w' = open_bodies w /\
  map fst (vars w') = map fst (vars w) /\
  (forall name : string, name <> "CubeExports" ->
     expvar_Get name (vars w') = expvar_Get name (vars w)) /\
  vars w' = after_adds (List.length ticks) (vars w).
Proof.
  revert w. induction ticks as [| now later IH]; intro w.
  - repeat split; reflexivity.
  - cbn [Run_loop List.length].
    pose proof (Run_tick_world collectionType putUrl now w) as Hw1.
    cbv zeta in Hw1.
    set (w1 := Tick collectionType putUrl now w) in *.
    assert (H1 : flags_of w1 = flags_of w /\ collector w1 = collector w /\
                 clock w1 = clock w /\ open_bodies w1 = open_bodies w /\
                 vars w1 = Int_Add "CubeExports" 1 (vars w))
      by (rewrite Hw1; repeat split; reflexivity).
    destruct H1 as [Hf1 [Hc1 [Hk1 [Ho1 Hv1]]]].
    destruct (IH w1) as [Hf [Hc [Hk [Ho [Hn [Hv Ha]]]]]].
    cbv zeta. repeat split; try congruence.
    + rewrite Hn, Hv1. apply Int_Add_keys.
    + intros name Hne. rewrite (Hv name Hne), Hv1. apply Int_Add_other. exact Hne.
    + rewrite Ha, Hv1. unfold after_adds. rewrite Nat.iter_succ_r. reflexivity.
Qed.

(** X2.  The loop of [Run] changes the counter, the traffic and the log,
    and nothing else: after any ticks, whatever the collector did, the
    flags, the collector and the clock are as before, no response body is
    left open, the variables have the names they had, in the same order,
    and every variable but [CubeExports] has the value it had. *)
Theorem Run_loop_frame (collectionType putUrl : string) (ticks : list Time) (w : World) :
  let w' := Loop collectionType putUrl ticks w in
  flags_of w' = flags_of w /\
  collector w' = collector w /\
  clock w' = clock w /\
  open_bodies w' = open_bodies w /\
  map fst (vars w') = map fst (vars w) /\
  (forall name : string, name <> "CubeExports" ->
     expvar_Get name (vars w') = expvar_Get name (vars w)) /\
  vars w' = after_adds (List.length ticks) (vars w).
Proof.
  revert w. induction ticks as [| now later IH]; intro w.
  - repeat split; reflexivity.
  - cbn [Run_loop List.length].
    pose proof (Run_tick_world collectionType putUrl now w) as Hw1.
    cbv zeta in Hw1.
    set (w1 := Tick collectionType putUrl now w) in *.
    assert (H1 : flags_of w1 = flags_of w /\ collector w1 = collector w /\
                 clock w1 = clock w /\ open_bodies w1 = open_bodies w /\
                 vars w1 = Int_Add "CubeExports" 1 (vars w))
      by (rewrite Hw1; repeat split; reflexivity).
    destruct H1 as [Hf1 [Hc1 [Hk1 [Ho1 Hv1]]]].
    destruct (IH w1) as [Hf [Hc [Hk [Ho [Hn [Hv Ha]]]]]].
    cbv zeta. repeat split; try congruence.
    + rewrite Hn, Hv1. apply Int_Add_keys.
    + intros name Hne. rewrite (Hv name Hne), Hv1. apply Int_Add_other. exact Hne.
    + rewrite Ha, Hv1. unfold after_adds. rewrite Nat.iter_succ_r. reflexivity.
Qed.

Lemma Run_tick_posts (collectionType putUrl : string) (now : Time) (w : World) :
  posts (Tick collectionType putUrl now w)
  = (posts w ++ [mkRequest putUrl "application/json"
                   (build_request isPrint_tables collectionType now (vars w))])%list.
Proof. rewrite Run_tick_world. reflexivity. Qed.

Lemma Run_tick_vars (collectionType putUrl : string) (now : Time) (w : World) :
  vars (Tick collectionType putUrl now w) = Int_Add "CubeExports" 1 (vars w).
Proof. rewrite Run_tick_world. reflexivity. Qed.

(** The loop only adds to the traffic: one request for each tick, to the
    URL it was given. *)
Lemma Run_loop_traffic (collectionType putUrl : string) (ticks : list Time) :
  forall w : World,
  exists extra : list Request,
    posts (Loop collectionType putUrl ticks w) = (posts w ++ extra)%list /\
    List.length extra = List.length ticks /\
    Forall (sent_to putUrl) extra.
Proof.
  induction ticks as [| now later IH]; intro w.
  - exists []. rewrite app_nil_r. repeat split. constructor.
  - cbn [Run_loop].
    destruct (IH (Tick collectionType putUrl now w)) as [extra [Hp [Hl Hf]]].
    rewrite Run_tick_posts, <- app_assoc in Hp.
    eexists. split; [exact Hp |]. split.
    + cbn [List.length app]. rewrite Hl. reflexivity.
    + constructor; [split; reflexivity | exact Hf].
Qed.

(** X1.  Whatever its flags, its registry and its ticks, and however it
    ends, [Run] only adds requests to the traffic, at most one for each
    tick, and every one of them is a POST of [application/json] to the URL
    made of the host and the port of the flags:
    [http://HOST:PORT/1.0/event/put]. *)
Theorem Run_posts_to_collector_url
        (collectionType : string) (ticks : list Time) (w : World) :
  exists extra : list Request,
    posts (snd (RunCube collectionType ticks w)) = (posts w ++ extra)%list /\
    (List.length extra <= List.length ticks)%nat /\
    Forall (sent_to (collector_url w)) extra.
Proof.
  unfold Run.
  destruct (flagExportToCube w); cbn [negb];
    [| exists []; rewrite app_nil_r; repeat split; [apply Nat.le_0_l | constructor]].
  cbn [flagExportInterval log_Printf set_logged].
  destruct (ParseDuration float_fraction (flagExportInterval w)) as [interval | err];
    [| exists []; cbn [snd posts]; rewrite app_nil_r;
       repeat split; [apply Nat.le_0_l | constructor]].
  cbn [vars log_Printf set_logged].
  destruct (expvar_NewInt "CubeExports" (vars w)) as [vs |];
    [| exists []; cbn [snd posts]; rewrite app_nil_r;
       repeat split; [apply Nat.le_0_l | constructor]].
  cbn [snd].
  match goal with
  | |- context [Run_loop _ _ ?url ?tk ?w0] =>
      destruct (Run_loop_traffic collectionType url tk w0) as [extra [Hp [Hl Hf]]]
  end.
  exists extra. split; [exact Hp |]. split; [| exact Hf].
  rewrite Hl. unfold time_Tick. destruct (interval <=? 0); cbn [List.length]; lia.
Qed.

(** The request of a tick, in the traffic. *)
Lemma Run_loop_nth_request
        (collectionType putUrl : string) (ticks : list Time) (w : World)
        (k : nat) (now : Time) :
  nth_error ticks k = Some now ->
  nth_error (posts (Loop collectionType putUrl ticks w)) (List.length (posts w) + k)
  = Some (mkRequest putUrl "application/json"
            (build_request isPrint_tables collectionType now
                           (after_adds k (vars w)))).
Proof.
  revert w k. induction ticks as [| first later IH]; intros w k Hk.
  - destruct k; discriminate.
  - cbn [Run_loop]. destruct k as [| k].
    + cbn [nth_error] in Hk. inversion Hk; subst.
      destruct (Run_loop_traffic collectionType putUrl later
                  (Tick collectionType putUrl now w)) as [extra [Hp _]].
      rewrite Hp, Run_tick_posts, <- app_assoc, Nat.add_0_r.
      rewrite nth_error_app2 by lia. rewrite Nat.sub_diag. reflexivity.
    + cbn [nth_error] in Hk.
      specialize (IH (Tick collectionType putUrl first w) k Hk).
      rewrite Run_tick_posts, length_app, Run_tick_vars in IH.
      cbn [List.length] in IH.
      replace (List.length (posts w) + S k)%nat
        with (List.length (posts w) + 1 + k)%nat by lia.
      rewrite IH. unfold after_adds. rewrite Nat.iter_succ_r. reflexivity.
Qed.

(** X3.  The request of each tick is stamped with the time of that tick
    and shows the registry as the ticks before it left it: the tick at
    position [k] sends the request built from its own time and from the
    registry after [k] additions to the counter. *)
Theorem Run_loop_request_of_tick
        (collectionType putUrl : string) (ticks : list Time) (w : World)
        (k : nat) (now : Time) :
  nth_error ticks k = Some now ->
  nth_error (posts (Loop collectionType putUrl ticks w)) (List.length (posts w) + k)
  = Some (mkRequest putUrl "application/json"
            (build_request isPrint_tables collectionType now
                           (after_adds k (vars w)))).
Proof.
  revert w k. induction ticks as [| first later IH]; intros w k Hk.
  - destruct k; discriminate.
  - cbn [Run_loop]. destruct k as [| k].
    + cbn [nth_error] in Hk. inversion Hk; subst.
      destruct (Run_loop_traffic collectionType putUrl later
                  (Tick collectionType putUrl now w)) as [extra [Hp _]].
      rewrite Hp, Run_tick_posts, <- app_assoc, Nat.add_0_r.
      rewrite nth_error_app2 by lia. rewrite Nat.sub_diag. reflexivity.
    + cbn [nth_error] in Hk.
      specialize (IH (Tick collectionType putUrl first w) k Hk).
      rewrite Run_tick_posts, length_app, Run_tick_vars in IH.
      cbn [List.length] in IH.
      replace (List.length (posts w) + S k)%nat
        with (List.length (posts w) + 1 + k)%nat by lia.
      rewrite IH. unfold after_adds. rewrite Nat.iter_succ_r. reflexivity.
Qed.

Lemma to_int64_add (x y : Z) : to_int64 (to_int64 x + y) = to_int64 (x + y).
Proof.
  unfold to_int64. f_equal.
  replace ((x + two63) mod two64 - two63 + y + two63)
    with ((x + two63) mod two64 + y) by ring.
  rewrite Z.add_mod_idemp_l by (unfold two64; lia).
  f_equal. ring.
Qed.

(** X4.  The counter is an [int64] and [Add] wraps around: after [N] ticks
    it holds [c + N] brought back into the range of an [int64], whatever
    [N]; so a counter at the greatest [int64] is at the least one after the
    next tick. *)
Theorem ExportCounter_wraps_around
        (collectionType putUrl : string) (ticks : list Time) (w : World) (c : Z) :
  ExportCounter w = Some (Var_Int c) ->
  - two63 <= c <= MaxInt64 ->
  ExportCounter (Loop collectionType putUrl ticks w)
  = Some (Var_Int (to_int64 (c + Z.of_nat (List.length ticks)))) /\
  (c + Z.of_nat (List.length ticks) = two63 ->
   ExportCounter (Loop collectionType putUrl ticks w) = Some (Var_Int (- two63))).
Proof.
  intros Hc Hrange.
  assert (Hgen : forall (ticks : list Time) (w : World) (x : Z),
             ExportCounter w = Some (Var_Int (to_int64 x)) ->
             ExportCounter (Loop collectionType putUrl ticks w)
             = Some (Var_Int (to_int64 (x + Z.of_nat (List.length ticks))))).
  { clear. induction ticks as [| now later IH]; intros w x Hx.
    - cbn [Run_loop List.length]. rewrite Z.add_0_r. exact Hx.
    - cbn [Run_loop]. rewrite (IH _ (x + 1)).
      + f_equal. f_equal. f_equal. cbn [List.length]. lia.
      + unfold ExportCounter. rewrite Run_tick_vars.
        rewrite (expvar_Get_Int_Add _ 1 _ _ Hx), to_int64_add. reflexivity. }
  assert (Hfirst : ExportCounter w = Some (Var_Int (to_int64 c)))
    by (rewrite to_int64_small by exact Hrange; exact Hc).
  split; [exact (Hgen ticks w c Hfirst) |].
  intro Htop. rewrite (Hgen ticks w c Hfirst), Htop. reflexivity.
Qed.

Lemma Run_tick_logged (collectionType putUrl : string) (now : Time) (w : World) :
  exists more : list LogEntry,
    logged (Tick collectionType putUrl now w) = (logged w ++ more)%list.
Proof. rewrite Run_tick_world. cbn [logged]. eauto. Qed.

(** The loop only adds to the log. *)
Lemma Run_loop_logged (collectionType putUrl : string) (ticks : list Time) :
  forall w : World,
  exists more : list LogEntry,
    logged (Loop collectionType putUrl ticks w) = (logged w ++ more)%list.
Proof.
  induction ticks as [| now later IH]; intro w.
  - exists []. rewrite app_nil_r. reflexivity.
  - cbn [Run_loop].
    destruct (IH (Tick collectionType putUrl now w)) as [more Hm].
    destruct (Run_tick_logged collectionType putUrl now w) as [more1 Hm1].
    rewrite Hm, Hm1, <- app_assoc. eauto.
Qed.

(** X5.  With a collector that cannot be reached the loop goes on: after
    [N] ticks it has still sent [N] requests, and it has logged three
    lines for each of them, the last of the three naming the tick. *)
Theorem failing_loop_logs_every_tick
        (collectionType putUrl : string) (ticks : list Time) (w : World) :
  (forall history r, exists err, collector w history r = PostError err) ->
  List.length (posts (Loop collectionType putUrl ticks w))
  = (List.length (posts w) + List.length ticks)%nat /\
  List.length (logged (Loop collectionType putUrl ticks w))
  = (List.length (logged w) + 3 * List.length ticks)%nat /\
  forall (k : nat) (now : Time),
    nth_error ticks k = Some now ->
    nth_error (logged (Loop collectionType putUrl ticks w))
              (List.length (logged w) + 3 * k + 2)
    = Some (mkLogEntry "Error exporting variables for %v" [A_Time now]).
Proof.
  revert w. induction ticks as [| first later IH]; intros w Hfail.
  - cbn [Run_loop List.length]. repeat split; try lia.
    intros k now Hk. destruct k; discriminate.
  - cbn [Run_loop].
    pose proof (Run_tick_world collectionType putUrl first w) as Hw1.
    cbv zeta in Hw1.
    destruct (Hfail (posts w)
                (mkRequest putUrl "application/json"
                   (build_request isPrint_tables collectionType first (vars w))))
      as [err Herr].
    rewrite Herr in Hw1.
    set (w1 := Tick collectionType putUrl first w) in *.
    assert (Hc1 : collector w1 = collector w) by (rewrite Hw1; reflexivity).
    assert (Hp1 : List.length (posts w1) = S (List.length (posts w)))
      by (rewrite Hw1; cbn [posts]; rewrite length_app; cbn [List.length]; lia).
    assert (Hl1 : exists a b,
               logged w1
               = (logged w ++
                  [a; b; mkLogEntry "Error exporting variables for %v"
                           [A_Time first]])%list)
      by (rewrite Hw1; cbn [logged]; eauto).
    destruct Hl1 as [a [b Hl1]].
    assert (Hlen1 : List.length (logged w1) = (List.length (logged w) + 3)%nat)
      by (rewrite Hl1, length_app; reflexivity).
    destruct (IH w1) as [Hposts [Hlog Hnth]];
      [rewrite Hc1; exact Hfail |].
    split; [rewrite Hposts, Hp1; cbn [List.length]; lia |].
    split; [rewrite Hlog, Hlen1; cbn [List.length]; lia |].
    intros k now Hk. destruct k as [| k].
    + cbn [nth_error] in Hk. inversion Hk; subst.
      destruct (Run_loop_logged collectionType putUrl later w1) as [more Hmore].
      rewrite Hmore, Hl1, <- app_assoc.
      rewrite nth_error_app2 by lia.
      replace (List.length (logged w) + 3 * 0 + 2 - List.length (logged w))%nat
        with 2%nat by lia.
      reflexivity.
    + cbn [nth_error] in Hk.
      rewrite <- (Hnth k now Hk). f_equal. lia.
Qed.


(** [Run] in its loop, taken apart. *)
Lemma Run_looping_inv (collectionType : string) (ticks : list Time) (w : World) :
  fst (RunCube collectionType ticks w) = Looping ->
  flagExportToCube w = true /\
  exists (interval : Z) (vs : registry) (w2 : World),
    ParseDuration float_fraction (flagExportInterval w) = inl interval /\
    expvar_NewInt "CubeExports" (vars w) = Some vs /\
    snd (RunCube collectionType ticks w)
    = Loop collectionType (collector_url w) (time_Tick interval ticks) w2 /\
    flags_of w2 = flags_of w /\
    vars w2 = vs.
Proof.
  unfold Run.
  destruct (flagExportToCube w) eqn:Hon; cbn [negb]; [| discriminate].
  cbn [flagExportInterval log_Printf set_logged].
  destruct (ParseDuration float_fraction (flagExportInterval w))
    as [interval | err]; [| discriminate].
  cbn [vars log_Printf set_logged].
  destruct (expvar_NewInt "CubeExports" (vars w)) as [vs |]; [| discriminate].
  intros _. split; [reflexivity |].
  exists interval, vs. eexists.
  split; [reflexivity |]. split; [reflexivity |].
  split; [reflexivity |]. split; reflexivity.
Qed.

(** X7.  [Run] cannot be started a second time in one process: once a
    [Run] has reached its loop, the counter is exported, and any later
    [Run], whatever its event type, panics in [expvar.NewInt] on the name
    in use; it sends nothing and leaves the registry alone. *)
Theorem second_Run_panics
        (collectionType : string) (ticks : list Time) (w : World)
        (collectionType' : string) (ticks' : list Time) :
  fst (RunCube collectionType ticks w) = Looping ->
  let w1 := snd (RunCube collectionType ticks w) in
  fst (RunCube collectionType' ticks' w1) = Panicked /\
  posts (snd (RunCube collectionType' ticks' w1)) = posts w1 /\
  vars (snd (RunCube collectionType' ticks' w1)) = vars w1.
Proof.
  intros Hloop w1.
  destruct (Run_looping_inv collectionType ticks w Hloop)
    as [Hon [interval [vs [w2 [Hparse [Hnew [Hw1 [Hflags Hvars]]]]]]]].
  fold w1 in Hw1.
  destruct (Run_loop_unchanged collectionType (collector_url w)
              (time_Tick interval ticks) w2) as [Hf [_ [_ [_ [Hkeys _]]]]].
  rewrite <- Hw1 in Hf, Hkeys. rewrite Hflags in Hf. rewrite Hvars in Hkeys.
  assert (Hon1 : flagExportToCube w1 = true)
    by (unfold flags_of in Hf; inversion Hf; congruence).
  assert (Hint1 : flagExportInterval w1 = flagExportInterval w)
    by (unfold flags_of in Hf; inversion Hf; congruence).
  assert (Hused : expvar_NewInt "CubeExports" (vars w1) = None).
  { unfold expvar_NewInt, expvar_Publish in *.
    destruct (expvar_Get "CubeExports" (vars w)) eqn:Hfree; [discriminate |].
    injection Hnew as Hvs. rewrite <- Hvs in Hkeys.
    destruct (expvar_Get "CubeExports" (vars w1)) eqn:Hget; [reflexivity |].
    pose proof (expvar_Get_keys "CubeExports" _ _ Hkeys Hget) as Hnone.
    rewrite (expvar_Get_insert_sorted "CubeExports" (Var_Int 0) _ Hfree) in Hnone.
    discriminate. }
  unfold Run. rewrite Hon1. cbn [negb].
  cbn [flagExportInterval log_Printf set_logged]. rewrite Hint1, Hparse.
  cbn [vars log_Printf set_logged]. rewrite Hused.
  repeat split.
Qed.

(** X8.  With export on and the name [CubeExports] free, an interval that
    parses to zero or less is taken: [Run] goes into its loop, and then
    nothing is ever exported, since [time.Tick] gives no ticks for it.
    Whatever ticks a ticker would deliver, no request is sent and the
    counter stays at zero. *)
Theorem Run_without_positive_interval
        (collectionType : string) (ticks : list Time) (w : World) (interval : Z) :
  flagExportToCube w = true ->
  ParseDuration float_fraction (flagExportInterval w) = inl interval ->
  interval <= 0 ->
  expvar_Get "CubeExports" (vars w) = None ->
  fst (RunCube collectionType ticks w) = Looping /\
  posts (snd (RunCube collectionType ticks w)) = posts w /\
  ExportCounter (snd (RunCube collectionType ticks w)) = Some (Var_Int 0) /\
  RunCube collectionType ticks w = RunCube collectionType [] w.
Proof.
  intros Hon Hparse Hle Hfree.
  unfold Run. rewrite Hon. cbn [negb].
  cbn [flagExportInterval log_Printf set_logged]. rewrite Hparse.
  unfold expvar_NewInt, expvar_Publish.
  cbn [vars log_Printf set_logged]. rewrite Hfree.
  unfold time_Tick. apply Z.leb_le in Hle. rewrite Hle.
  cbn [Run_loop fst snd]. repeat split.
  unfold ExportCounter. cbn [set_vars vars].
  apply expvar_Get_insert_sorted. exact Hfree.
Qed.

(** X10.  The defaults of [init] are a configuration that works: with
    them, and the name of the counter free, [Run] goes into its loop and
    sends one request for each tick to
    [http://localhost:1080/1.0/event/put]. *)
Theorem Run_with_default_flags
        (collectionType : string) (ticks : list Time) (w : World) :
  expvar_Get "CubeExports" (vars w) = None ->
  fst (RunCube collectionType ticks (init w)) = Looping /\
  exists extra : list Request,
    posts (snd (RunCube collectionType ticks (init w))) = (posts w ++ extra)%list /\
    List.length extra = List.length ticks /\
    Forall (sent_to "http://localhost:1080/1.0/event/put") extra.
Proof.
  intro Hfree.
  assert (Hparse : ParseDuration float_fraction "10s" = inl 10000000000)
    by (vm_compute; reflexivity).
  assert (Hurl : collector_url (init w) = "http://localhost:1080/1.0/event/put")
    by (vm_compute; reflexivity).
  assert (Hposts : posts (init w) = posts w) by reflexivity.
  assert (Hvars : vars (init w) = vars w) by reflexivity.
  assert (Hon : flagExportToCube (init w) = true) by reflexivity.
  assert (Hint : flagExportInterval (init w) = "10s") by reflexivity.
  revert Hurl Hposts Hvars Hon Hint. generalize (init w) as w0.
  intros w0 Hurl Hposts Hvars Hon Hint.
  unfold Run. rewrite Hon. cbn [negb].
  cbn [flagExportInterval log_Printf set_logged]. rewrite Hint, Hparse.
  unfold expvar_NewInt, expvar_Publish.
  cbn [vars log_Printf set_logged]. rewrite Hvars, Hfree.
  cbn [fst snd]. split; [reflexivity |].
  unfold time_Tick. cbn [Z.leb Z.compare].
  fold (collector_url w0). rewrite Hurl.
  match goal with
  | |- context [Run_loop _ _ ?url ticks ?w1] =>
      destruct (Run_loop_traffic collectionType url ticks w1) as [extra [Hp [Hl Hf]]]
  end.
  exists extra. split; [| split; [exact Hl | exact Hf]].
  rewrite Hp. unfold set_vars, log_Printf, set_logged. cbn [posts].
  rewrite Hposts. reflexivity.
Qed.

End Loop.

(* ===================================================================== *)
(** ** Integers in the request *)
(* ===================================================================== *)

Lemma digit_char_facts (c : ascii) :
  is_digit c = true ->
  Json.is_ws c = false /\
  Json.is_number_char c = true /\
  Ascii.eqb c "-" = false /\
  (Ascii.eqb c "{" || Ascii.eqb c "[" || Ascii.eqb c dquote ||
   Ascii.eqb c "t" || Ascii.eqb c "f" || Ascii.eqb c "n") = false.
Proof.
  destruct c as [[] [] [] [] [] [] [] []]; intro H;
    try (cbv in H; discriminate H); repeat split.
Qed.

Lemma digits_span (s : string) :
  all_digits s = true -> Json.number_span s = (s, EmptyString).
Proof.
  induction s as [| c s IH]; [reflexivity |].
  cbn [all_digits Json.number_span]. intro H.
  apply andb_true_iff in H as [Hc Hs].
  destruct (digit_char_facts c Hc) as [_ [Hn _]].
  rewrite Hn, (IH Hs). reflexivity.
Qed.

Lemma digits_accepted (s : string) :
  all_digits s = true -> Json.number_accepts Json.NInt s = true.
Proof.
  induction s as [| c s IH]; [reflexivity |].
  cbn [all_digits Json.number_accepts Json.number_step]. intro H.
  apply andb_true_iff in H as [Hc Hs].
  rewrite Hc. exact (IH Hs).
Qed.

Lemma starts_nonzero_accepted (s : string) :
  starts_nonzero s = true ->
  all_digits s = true /\
  Json.number_accepts Json.NStart s = true /\
  Json.number_accepts Json.NMinus s = true.
Proof.
  destruct s as [| c s]; [discriminate |].
  cbn [starts_nonzero]. intro H.
  apply andb_true_iff in H as [H Hs].
  apply andb_true_iff in H as [Hc Hz].
  apply negb_true_iff in Hz.
  destruct (digit_char_facts c Hc) as [_ [_ [Hm _]]].
  cbn [all_digits Json.number_accepts Json.number_step].
  rewrite Hm, Hz, Hc, Hs, (digits_accepted s Hs). repeat split.
Qed.

Lemma nonzero_digit (d : Z) :
  1 <= d < 10 -> Ascii.eqb (digit d) "0" = false.
Proof.
  intro H.
  assert (Hall : all_below 10 (fun d => (d =? 0) || negb (Ascii.eqb (digit d) "0")) = true)
    by reflexivity.
  pose proof (all_below_spec _ 10 Hall d ltac:(lia)) as Hd. cbv beta in Hd.
  apply orb_true_iff in Hd as [Hd | Hd].
  - apply Z.eqb_eq in Hd. lia.
  - apply negb_true_iff in Hd. exact Hd.
Qed.

(** [utoa_loop] writes no zero in front of a number that is not zero. *)
Lemma utoa_loop_starts_nonzero (fuel : nat) :
  forall (u : Z) (acc : string),
    0 < u < 2 ^ Z.of_nat fuel ->
    all_digits acc = true ->
    starts_nonzero (utoa_loop fuel u acc) = true.
Proof.
  induction fuel as [| f IH]; intros u acc Hu Hacc.
  - simpl in Hu. lia.
  - cbn [utoa_loop].
    assert (Hm : 0 <= u mod 10 < 10) by (apply Z.mod_pos_bound; lia).
    destruct (u / 10 =? 0) eqn:Hq.
    + apply Z.eqb_eq in Hq.
      assert (Hsmall : u mod 10 = u) by (pose proof (Z.div_mod u 10); lia).
      cbn [starts_nonzero].
      rewrite is_digit_digit, nonzero_digit, Hacc by lia. reflexivity.
    + apply Z.eqb_neq in Hq. apply IH.
      * rewrite Nat2Z.inj_succ, Z.pow_succ_r in Hu by lia.
        split; [| apply Z.div_lt_upper_bound; lia].
        assert (0 <= u / 10) by (apply Z.div_pos; lia). lia.
      * cbn [all_digits]. rewrite is_digit_digit, Hacc by lia. reflexivity.
Qed.

Lemma FormatUint_starts_nonzero (u : Z) :
  0 < u -> starts_nonzero (FormatUint u) = true.
Proof.
  intro Hu. unfold FormatUint. apply utoa_loop_starts_nonzero; [| reflexivity].
  split; [exact Hu |].
  rewrite Nat2Z.inj_succ, Z2Nat.id by apply Z.log2_nonneg.
  apply Z.log2_spec. exact Hu.
Qed.

(** A text that the grammar of numbers accepts, whole, is a JSON text. *)
Lemma number_text_parses (c : ascii) (s : string) :
  Json.is_ws c = false ->
  (Ascii.eqb c "{" || Ascii.eqb c "[" || Ascii.eqb c dquote ||
   Ascii.eqb c "t" || Ascii.eqb c "f" || Ascii.eqb c "n") = false ->
  Json.number_span (String c s) = (String c s, EmptyString) ->
  Json.number_accepts Json.NStart (String c s) = true ->
  Json.parse (String c s) = Some (JNumber (String c s)).
Proof.
  intros Hws Hfirst Hspan Hacc.
  unfold Json.parse. rewrite value_S.
  cbn [Json.skip_ws]. rewrite Hws.
  repeat (apply orb_false_iff in Hfirst as [Hfirst ?]).
  repeat match goal with H : Ascii.eqb c _ = false |- _ => rewrite H; clear H end.
  unfold Json.number. rewrite Hspan, Hacc. reflexivity.
Qed.

(** What an [expvar.Int] prints is a JSON number, for every value. *)
Lemma FormatInt_parses (n : Z) :
  Json.parse (FormatInt n) = Some (JNumber (FormatInt n)).
Proof.
  unfold FormatInt. destruct (n <? 0) eqn:Hneg.
  - apply Z.ltb_lt in Hneg.
    destruct (starts_nonzero_accepted _ (FormatUint_starts_nonzero (- n) ltac:(lia)))
      as [Hd [_ Hacc]].
    generalize dependent (FormatUint (- n)). intros d Hd Hacc.
    cbn [append]. apply number_text_parses; try reflexivity.
    + cbn. rewrite (digits_span _ Hd). reflexivity.
    + cbn. exact Hacc.
  - apply Z.ltb_ge in Hneg.
    destruct (Z.eq_dec n 0) as [-> | Hnz]; [reflexivity |].
    pose proof (FormatUint_starts_nonzero n ltac:(lia)) as Hs.
    destruct (starts_nonzero_accepted _ Hs) as [Hd [Hacc _]].
    destruct (FormatUint n) as [| c s] eqn:Hf; [discriminate |].
    cbn [all_digits] in Hd. pose proof Hd as Hd'.
    apply andb_true_iff in Hd' as [Hc _].
    destruct (digit_char_facts c Hc) as [Hws [_ [_ Hfirst]]].
    apply number_text_parses; auto.
    apply digits_span. exact Hd.
Qed.

Section IntVariables.

Variable isPrint_tables : N -> bool.

(** The request of integers, read. *)
Lemma Int_vars_request_reads
        (collectionType : string) (timestamp : Time) (ints : list (string * Z)) :
  Json.plain collectionType = true ->
  Forall (fun kn => Json.printable (fst kn) = true) ints ->
  Json.parse (build_request isPrint_tables collectionType timestamp (Int_vars ints))
  = Some (JArray
            [JObject
               [("type", JString collectionType);
                ("time", JString (Format_ANSIC timestamp));
                ("data",
                 JObject
                   (map (fun kn => (quoted_text isPrint_tables (fst kn),
                                    JNumber (FormatInt (snd kn)))) ints))]]).
Proof.
  intros Htype Hnames.
  assert (Hcombine :
            combine (map (fun kv => quoted_text isPrint_tables (fst kv)) (Int_vars ints))
                    (map (fun kn => JNumber (FormatInt (snd kn))) ints)
            = map (fun kn => (quoted_text isPrint_tables (fst kn),
                              JNumber (FormatInt (snd kn)))) ints).
  { clear. unfold Int_vars. induction ints as [| kn ints IH]; [reflexivity |].
    cbn [map combine fst snd]. f_equal. exact IH. }
  rewrite <- Hcombine.
  apply build_request_reads; [exact Htype | |].
  - clear - Hnames. unfold Int_vars.
    induction Hnames as [| kn ints Hkn _ IH]; constructor; auto.
  - clear. unfold Int_vars.
    induction ints as [| kn ints IH]; constructor; [| exact IH].
    apply FormatInt_parses.
Qed.

(** X9.  Variables that are [expvar.Int]s, the export counter among them,
    always keep the request a JSON text: for an event type without quotes,
    backslashes and control characters and names of printable ASCII
    characters, the request of any integers is the array of one event
    whose [data] has, for each variable, its quoted name and its value as
    a JSON number, written as [FormatInt] writes it. *)
Theorem Int_variables_are_numbers
        (collectionType : string) (timestamp : Time) (ints : list (string * Z)) :
  Json.plain collectionType = true ->
  Forall (fun kn => Json.printable (fst kn) = true) ints ->
  Json.parse (build_request isPrint_tables collectionType timestamp (Int_vars ints))
  = Some (JArray
            [JObject
               [("type", JString collectionType);
                ("time", JString (Format_ANSIC timestamp));
                ("data",
                 JObject
                   (map (fun kn => (quoted_text isPrint_tables (fst kn),
                                    JNumber (FormatInt (snd kn)))) ints))]]).
Proof.
  intros Htype Hnames.
  assert (Hcombine :
            combine (map (fun kv => quoted_text isPrint_tables (fst kv)) (Int_vars ints))
                    (map (fun kn => JNumber (FormatInt (snd kn))) ints)
            = map (fun kn => (quoted_text isPrint_tables (fst kn),
                              JNumber (FormatInt (snd kn)))) ints).
  { clear. unfold Int_vars. induction ints as [| kn ints IH]; [reflexivity |].
    cbn [map combine fst snd]. f_equal. exact IH. }
  rewrite <- Hcombine.
  apply build_request_reads; [exact Htype | |].
  - clear - Hnames. unfold Int_vars.
    induction Hnames as [| kn ints Hkn _ IH]; constructor; auto.
  - clear. unfold Int_vars.
    induction ints as [| kn ints IH]; constructor; [| exact IH].
    apply FormatInt_parses.
Qed.

End IntVariables.

Section IntegerRun.

Variable isPrint_tables : N -> bool.

Lemma Int_Add_Int_vars (name : string) (delta : Z) (ints : list (string * Z)) :
  exists ints' : list (string * Z),
    Int_Add name delta (Int_vars ints) = Int_vars ints' /\
    map fst ints' = map fst ints.
Proof.
  unfold Int_vars. induction ints as [| [k n] ints [ints' [IH Hk]]].
  - exists []. split; reflexivity.
  - cbn [map Int_Add fst snd]. destruct (String.eqb k name).
    + exists ((k, to_int64 (n + delta)) :: ints). split; reflexivity.
    + exists ((k, n) :: ints'). cbn [map fst snd]. rewrite IH, Hk.
      split; reflexivity.
Qed.

Lemma after_adds_Int_vars (k : nat) (ints : list (string * Z)) :
  exists ints' : list (string * Z),
    after_adds k (Int_vars ints) = Int_vars ints' /\
    map fst ints' = map fst ints.
Proof.
  unfold after_adds. induction k as [| k [ints1 [IH Hk]]].
  - exists ints. split; reflexivity.
  - rewrite Nat.iter_succ, IH.
    destruct (Int_Add_Int_vars "CubeExports" 1 ints1) as [ints2 [H2 Hk2]].
    exists ints2. split; [exact H2 | congruence].
Qed.

Lemma printable_names (ints ints' : list (string * Z)) :
  map fst ints' = map fst ints ->
  Forall (fun kn => Json.printable (fst kn) = true) ints ->
  Forall (fun kn => Json.printable (fst kn) = true) ints'.
Proof.
  revert ints. induction ints' as [| kn' ints' IH]; intros [| kn ints] Hk Hall;
    try discriminate; constructor.
  - cbn [map] in Hk. injection Hk as Hfst _.
    inversion Hall as [| kn0 ints0 Hkn _]; subst.
    rewrite Hfst. exact Hkn.
  - cbn [map] in Hk. injection Hk as _ Hrest.
    inversion Hall as [| kn0 ints0 _ Hall']; subst. eauto.
Qed.

(** X11.  A process whose exported variables are all [expvar.Int]s, with
    names of printable ASCII, and whose event type has no quote, backslash
    or control character, sends a JSON text at every tick: the request of
    the tick at position [k] is the array of one event with the event type,
    the time of that tick in the [ANSIC] layout, and the same variables in
    the same order, each with a JSON number for its value. *)
Theorem integer_run_sends_json
        (collectionType putUrl : string) (ticks : list Time) (w : World)
        (ints : list (string * Z)) (k : nat) (now : Time) :
  vars w = Int_vars ints ->
  Json.plain collectionType = true ->
  Forall (fun kn => Json.printable (fst kn) = true) ints ->
  nth_error ticks k = Some now ->
  exists (r : Request) (ints' : list (string * Z)),
    nth_error (posts (Run_loop isPrint_tables collectionType putUrl ticks w))
              (List.length (posts w) + k) = Some r /\
    map fst ints' = map fst ints /\
    Json.parse (req_body r)
    = Some (JArray
              [JObject
                 [("type", JString collectionType);
                  ("time", JString (Format_ANSIC now));
                  ("data",
                   JObject
                     (map (fun kn => (quoted_text isPrint_tables (fst kn),
                                      JNumber (FormatInt (snd kn)))) ints'))]]).
Proof.
  intros Hvars Htype Hnames Hk.
  destruct (after_adds_Int_vars k ints) as [ints' [Hafter Hkeys]].
  eexists. exists ints'.
  split; [exact (Run_loop_nth_request isPrint_tables collectionType putUrl
                   ticks w k now Hk) |].
  split; [exact Hkeys |].
  cbn [req_body]. rewrite Hvars, Hafter.
  apply Int_vars_request_reads; [exact Htype |].
  exact (printable_names ints ints' Hkeys Hnames).
Qed.

End IntegerRun.

(** *** Witnesses of the further properties *)

Lemma Run_loop_request_of_tick_witness :
  nth_error (posts (Run_loop no_tables "myevents" sample_url five_ticks
                             (looping_world flaky))) 1
  = Some (mkRequest sample_url "application/json"
            (build_request no_tables "myevents" (mkTime 1700000020 0 0)
               [("CubeExports", Var_Int 1); ("cmdline", Var_Other "[]")])).
Proof.
  assert (Hk : nth_error five_ticks 1 = Some (mkTime 1700000020 0 0))
    by reflexivity.
  exact (Run_loop_request_of_tick no_tables "myevents" sample_url five_ticks
           (looping_world flaky) 1 (mkTime 1700000020 0 0) Hk).
Defined.

Lemma ExportCounter_wraps_around_witness :
  ExportCounter (Run_loop no_tables "myevents" sample_url
                          [mkTime 1700000010 0 0] brimful_world)
  = Some (Var_Int (- two63)).
Proof.
  assert (Hc : ExportCounter brimful_world = Some (Var_Int 9223372036854775807))
    by reflexivity.
  assert (Hrange : - two63 <= 9223372036854775807 <= MaxInt64)
    by (split; vm_compute; discriminate).
  assert (Htop : 9223372036854775807
                 + Z.of_nat (List.length [mkTime 1700000010 0 0]) = two63)
    by reflexivity.
  exact (proj2 (ExportCounter_wraps_around no_tables "myevents" sample_url
                  [mkTime 1700000010 0 0] brimful_world _ Hc Hrange) Htop).
Defined.

Lemma failing_loop_logs_every_tick_witness :
  List.length (logged (Run_loop no_tables "myevents" sample_url five_ticks
                                (looping_world unreachable)))
  = (List.length (logged (looping_world unreachable)) + 3 * List.length five_ticks)%nat.
Proof.
  assert (Hfail : forall history r,
             exists err, collector (looping_world unreachable) history r
                         = PostError err)
    by (intros history r; eexists; reflexivity).
  exact (proj1 (proj2 (failing_loop_logs_every_tick no_tables "myevents"
                         sample_url five_ticks (looping_world unreachable) Hfail))).
Defined.


Lemma second_Run_panics_witness :
  fst (Run no_tables exact_fraction "other"
           five_ticks
           (snd (Run no_tables exact_fraction "myevents" five_ticks
                     (sample_world "10s" true flaky))))
  = Panicked.
Proof.
  assert (Hloop : fst (Run no_tables exact_fraction "myevents" five_ticks
                           (sample_world "10s" true flaky)) = Looping)
    by (vm_compute; reflexivity).
  pose proof (second_Run_panics no_tables exact_fraction "myevents" five_ticks
                (sample_world "10s" true flaky) "other" five_ticks Hloop) as H.
  cbv zeta in H. exact (proj1 H).
Defined.

Lemma Run_without_positive_interval_witness :
  posts (snd (Run no_tables exact_fraction "myevents" five_ticks
                  (sample_world "-10s" true (answering 200))))
  = posts (sample_world "-10s" true (answering 200)).
Proof.
  assert (Hon : flagExportToCube (sample_world "-10s" true (answering 200)) = true)
    by reflexivity.
  assert (Hparse : ParseDuration exact_fraction
                     (flagExportInterval (sample_world "-10s" true (answering 200)))
                   = inl (-10000000000))
    by (vm_compute; reflexivity).
  assert (Hle : -10000000000 <= 0) by lia.
  assert (Hfree : expvar_Get "CubeExports"
                    (vars (sample_world "-10s" true (answering 200))) = None)
    by reflexivity.
  exact (proj1 (proj2 (Run_without_positive_interval no_tables exact_fraction
                         "myevents" five_ticks _ _ Hon Hparse Hle Hfree))).
Defined.

Lemma Run_with_default_flags_witness :
  fst (Run no_tables exact_fraction "myevents" five_ticks
           (init (sample_world "abc" false unreachable)))
  = Looping.
Proof.
  assert (Hfree : expvar_Get "CubeExports"
                    (vars (sample_world "abc" false unreachable)) = None)
    by reflexivity.
  exact (proj1 (Run_with_default_flags no_tables exact_fraction "myevents"
                  five_ticks (sample_world "abc" false unreachable) Hfree)).
Defined.

Lemma Int_variables_are_numbers_witness :
  Json.parse (build_request no_tables "myevents" (mkTime 1700000000 0 0)
                (Int_vars [("errors", -3); ("requests", 42)]))
  = Some (JArray
            [JObject
               [("type", JString "myevents");
                ("time", JString (Format_ANSIC (mkTime 1700000000 0 0)));
                ("data", JObject [("errors", JNumber "-3");
                                  ("requests", JNumber "42")])]]).
Proof.
  assert (Htype : Json.plain "myevents" = true) by reflexivity.
  assert (Hnames : Forall (fun kn : string * Z => Json.printable (fst kn) = true)
                     [("errors", -3); ("requests", 42)])
    by (repeat constructor).
  exact (Int_variables_are_numbers no_tables "myevents" (mkTime 1700000000 0 0)
           [("errors", -3); ("requests", 42)] Htype Hnames).
Defined.

Lemma integer_run_sends_json_witness :
  exists (r : Request) (ints' : list (string * Z)),
    nth_error (posts (Run_loop no_tables "myevents" sample_url five_ticks
                               integer_world))
              (List.length (posts integer_world) + 2) = Some r /\
    map fst ints' = ["CubeExports"; "errors"; "requests"] /\
    Json.parse (req_body r)
    = Some (JArray
              [JObject
                 [("type", JString "myevents");
                  ("time", JString (Format_ANSIC (mkTime 1700000030 0 0)));
                  ("data",
                   JObject
                     (map (fun kn => (quoted_text no_tables (fst kn),
                                      JNumber (FormatInt (snd kn)))) ints'))]]).
Proof.
  assert (Hvars : vars integer_world
                  = Int_vars [("CubeExports", 0); ("errors", -3); ("requests", 42)])
    by reflexivity.
  assert (Htype : Json.plain "myevents" = true) by reflexivity.
  assert (Hnames : Forall (fun kn : string * Z => Json.printable (fst kn) = true)
                     [("CubeExports", 0); ("errors", -3); ("requests", 42)])
    by (repeat constructor).
  assert (Hk : nth_error five_ticks 2 = Some (mkTime 1700000030 0 0))
    by reflexivity.
  exact (integer_run_sends_json no_tables "myevents" sample_url five_ticks
           integer_world _ 2 _ Hvars Htype Hnames Hk).
Defined.

Lemma Run_counts_ticks_witness :
  ExportCounter (snd (Run no_tables exact_fraction "myevents" five_ticks
                          (sample_world "10s" true flaky)))
  = Some (Var_Int 5).
Proof.
  assert (Hon : flagExportToCube (sample_world "10s" true flaky) = true)
    by reflexivity.
  assert (Hparse : ParseDuration exact_fraction
                     (flagExportInterval (sample_world "10s" true flaky))
                   = inl 10000000000)
    by (vm_compute; reflexivity).
  assert (Hpos : 0 < 10000000000) by lia.
  assert (Hfree : expvar_Get "CubeExports" (vars (sample_world "10s" true flaky))
                  = None)
    by reflexivity.
  assert (Hmax : Z.of_nat (List.length five_ticks) <= MaxInt64)
    by (vm_compute; discriminate).
  exact (proj1 (proj2 (Run_counts_ticks no_tables exact_fraction "myevents"
                         five_ticks _ _ Hon Hparse Hpos Hfree Hmax))).
Defined.

(* ===================================================================== *)
(** ** The counter, tick by tick *)
(* ===================================================================== *)

Section Counter.

Variable isPrint_tables : N -> bool.
Variable float_fraction : Z -> Z -> Z -> Z.

Local Abbreviation Loop := (Run_loop isPrint_tables).
Local Abbreviation RunCube := (Run isPrint_tables float_fraction).

(** The counter after the loop has taken some ticks, as an [int64]. *)
Lemma Run_loop_counter_int64 (collectionType putUrl : string) (ticks : list Time) :
  forall (w : World) (x : Z),
    ExportCounter w = Some (Var_Int (to_int64 x)) ->
    ExportCounter (Loop collectionType putUrl ticks w)
    = Some (Var_Int (to_int64 (x + Z.of_nat (List.length ticks)))).
Proof.
  induction ticks as [| now later IH]; intros w x Hx.
  - cbn [Run_loop List.length]. rewrite Z.add_0_r. exact Hx.
  - cbn [Run_loop]. rewrite (IH _ (x + 1)).
    + f_equal. f_equal. f_equal. cbn [List.length]. lia.
    + unfold ExportCounter. rewrite Run_tick_vars.
      rewrite (expvar_Get_Int_Add _ 1 _ _ Hx), to_int64_add. reflexivity.
Qed.

(** One call of [http.Post] for each tick. *)
Lemma Run_loop_posts_length
      (collectionType putUrl : string) (ticks : list Time) (w : World) :
  List.length (posts (Loop collectionType putUrl ticks w))
  = (List.length (posts w) + List.length ticks)%nat.
Proof.
  destruct (Run_loop_traffic isPrint_tables collectionType putUrl ticks w)
    as [extra [Hp [Hl _]]].
  rewrite Hp, length_app, Hl. reflexivity.
Qed.

(** [Run] as far as its loop: the counter is created at zero, nothing has
    been sent, and the loop takes the ticks of [time.Tick]. *)
Lemma Run_enters_loop (collectionType : string) (w : World) (interval : Z) :
  flagExportToCube w = true ->
  ParseDuration float_fraction (flagExportInterval w) = inl interval ->
  expvar_Get "CubeExports" (vars w) = None ->
  exists w0 : World,
    ExportCounter w0 = Some (Var_Int 0) /\
    posts w0 = posts w /\
    forall ticks : list Time,
      RunCube collectionType ticks w
      = (Looping,
         Loop collectionType (collector_url w) (time_Tick interval ticks) w0).
Proof.
  intros Hon Hparse Hfree.
  unfold Run. rewrite Hon. cbn [negb].
  cbn [flagExportInterval log_Printf set_logged]. rewrite Hparse.
  unfold expvar_NewInt, expvar_Publish.
  cbn [vars log_Printf set_logged]. rewrite Hfree.
  eexists. split; [| split; [| intro ticks; reflexivity]].
  - unfold ExportCounter. cbn [set_vars vars].
    apply expvar_Get_insert_sorted. exact Hfree.
  - reflexivity.
Qed.

(** C3, amended.  The counter goes up by one with every tick, after the
    cycle of that tick and whether its call of [http.Post] failed or not
    (the collector of [w] is any collector), as an [int64], which wraps
    around.  In the loop: after the first [n] ticks a counter that was at
    [c] is at [c + n] brought into the range of an [int64]; it is at
    [c + n] itself, [n] more and not less than before, as long as [c + n]
    is no more than the greatest [int64]; [n] requests have been sent; and
    the request of the next tick is built from the registry that shows the
    counter after these [n] ticks, not yet the tick of the request.  In
    [Run] from its start, with export on, a positive interval and the name
    [CubeExports] free: [Run] is in its loop, and after [n] ticks the
    counter, created at zero, is at [n] and [n] requests have been sent. *)
Theorem ExportCounter_counts_ticks :
  (forall (collectionType putUrl : string) (ticks : list Time) (w : World)
          (c : Z) (n : nat),
     ExportCounter w = Some (Var_Int c) ->
     - two63 <= c <= MaxInt64 ->
     (n <= List.length ticks)%nat ->
     let w_n := Loop collectionType putUrl (firstn n ticks) w in
     ExportCounter w_n = Some (Var_Int (to_int64 (c + Z.of_nat n))) /\
     (c + Z.of_nat n <= MaxInt64 ->
      ExportCounter w_n = Some (Var_Int (c + Z.of_nat n))) /\
     List.length (posts w_n) = (List.length (posts w) + n)%nat /\
     (forall now : Time, nth_error ticks n = Some now ->
        nth_error (posts (Loop collectionType putUrl ticks w))
                  (List.length (posts w) + n)
        = Some (mkRequest putUrl "application/json"
                  (build_request isPrint_tables collectionType now (vars w_n))) /\
        ExportCounter (Loop collectionType putUrl (firstn (S n) ticks) w)
        = Some (Var_Int (to_int64 (c + Z.of_nat n + 1))))) /\
  (forall (collectionType : string) (ticks : list Time) (w : World)
          (interval : Z) (n : nat),
     flagExportToCube w = true ->
     ParseDuration float_fraction (flagExportInterval w) = inl interval ->
     0 < interval ->
     expvar_Get "CubeExports" (vars w) = None ->
     (n <= List.length ticks)%nat ->
     let end_n := RunCube collectionType (firstn n ticks) w in
     fst end_n = Looping /\
     ExportCounter (snd end_n) = Some (Var_Int (to_int64 (Z.of_nat n))) /\
     (Z.of_nat n <= MaxInt64 ->
      ExportCounter (snd end_n) = Some (Var_Int (Z.of_nat n))) /\
     List.length (posts (snd end_n)) = (List.length (posts w) + n)%nat).
Proof.
  split.
  - intros collectionType putUrl ticks w c n Hc Hrange Hn w_n.
    assert (Hlen : List.length (firstn n ticks) = n)
      by (apply firstn_length_le; exact Hn).
    assert (Hfirst : ExportCounter w = Some (Var_Int (to_int64 c)))
      by (rewrite to_int64_small by exact Hrange; exact Hc).
    assert (Hmod : ExportCounter w_n = Some (Var_Int (to_int64 (c + Z.of_nat n)))).
    { subst w_n.
      rewrite (Run_loop_counter_int64 collectionType putUrl (firstn n ticks) w c Hfirst).
      rewrite Hlen. reflexivity. }
    split; [exact Hmod |]. split; [| split].
    + intro Hhi. rewrite Hmod, to_int64_small by lia. reflexivity.
    + subst w_n. rewrite Run_loop_posts_length, Hlen. reflexivity.
    + intros now Hnow. split.
      * rewrite (Run_loop_nth_request isPrint_tables collectionType putUrl
                   ticks w n now Hnow).
        destruct (Run_loop_unchanged isPrint_tables collectionType putUrl
                    (firstn n ticks) w) as [_ [_ [_ [_ [_ [_ Hvars]]]]]].
        subst w_n. rewrite Hvars, Hlen. reflexivity.
      * assert (HSn : (S n <= List.length ticks)%nat).
        { apply Nat.le_succ_l. apply nth_error_Some. rewrite Hnow. discriminate. }
        rewrite (Run_loop_counter_int64 collectionType putUrl
                   (firstn (S n) ticks) w c Hfirst).
        rewrite firstn_length_le by exact HSn.
        f_equal. f_equal. f_equal. lia.
  - intros collectionType ticks w interval n Hon Hparse Hpos Hfree Hn end_n.
    destruct (Run_enters_loop collectionType w interval Hon Hparse Hfree)
      as [w0 [H0 [Hp0 Hrun]]].
    assert (Hlen : List.length (firstn n ticks) = n)
      by (apply firstn_length_le; exact Hn).
    assert (Htick : time_Tick interval (firstn n ticks) = firstn n ticks).
    { unfold time_Tick. destruct (interval <=? 0) eqn:Hle; [| reflexivity].
      apply Z.leb_le in Hle. lia. }
    subst end_n. rewrite Hrun, Htick. cbn [fst snd].
    assert (Hmod : ExportCounter (Loop collectionType (collector_url w)
                                       (firstn n ticks) w0)
                   = Some (Var_Int (to_int64 (Z.of_nat n)))).
    { rewrite (Run_loop_counter_int64 collectionType (collector_url w)
                 (firstn n ticks) w0 0 H0).
      rewrite Hlen. reflexivity. }
    split; [reflexivity |]. split; [exact Hmod |]. split.
    + intro Hhi. rewrite Hmod, to_int64_small; [reflexivity |].
      unfold two63. lia.
    + rewrite Run_loop_posts_length, Hlen, Hp0. reflexivity.
Qed.

End Counter.

(** C3, as stated, fails: a counter at the greatest [int64] is at the least
    one after the next tick, so over that tick it has not gone up by one
    and it has gone down. *)
Lemma counter_at_MaxInt64_goes_down :
  ~ counter_goes_up_by_the_ticks.
Proof.
  unfold counter_goes_up_by_the_ticks. intro H.
  destruct (H no_tables "myevents" sample_url [mkTime 1700000010 0 0]
              brimful_world 9223372036854775807 eq_refl)
    as [c' [Hc' [_ Hle]]].
  vm_compute in Hc'. injection Hc' as Hc'. subst c'.
  vm_compute in Hle. apply Hle. reflexivity.
Qed.

Lemma ExportCounter_counts_ticks_witness :
  ExportCounter (Run_loop no_tables "myevents" sample_url (firstn 5 five_ticks)
                          (looping_world flaky))
  = Some (Var_Int 5) /\
  ExportCounter (snd (Run no_tables exact_fraction "myevents" (firstn 3 five_ticks)
                          (sample_world "10s" true flaky)))
  = Some (Var_Int 3).
Proof.
  split.
  - assert (H0 : ExportCounter (looping_world flaky) = Some (Var_Int 0))
      by reflexivity.
    assert (Hrange : - two63 <= 0 <= MaxInt64)
      by (split; vm_compute; discriminate).
    assert (Hn : (5 <= List.length five_ticks)%nat) by (vm_compute; lia).
    assert (Hhi : 0 + Z.of_nat 5 <= MaxInt64) by (vm_compute; discriminate).
    exact (proj1 (proj2 (proj1 (ExportCounter_counts_ticks no_tables exact_fraction)
                           "myevents" sample_url five_ticks
                           (looping_world flaky) 0 5%nat H0 Hrange Hn)) Hhi).
  - assert (Hon : flagExportToCube (sample_world "10s" true flaky) = true)
      by reflexivity.
    assert (Hparse : ParseDuration exact_fraction
                       (flagExportInterval (sample_world "10s" true flaky))
                     = inl 10000000000)
      by (vm_compute; reflexivity).
    assert (Hpos : 0 < 10000000000) by lia.
    assert (Hfree : expvar_Get "CubeExports" (vars (sample_world "10s" true flaky))
                    = None)
      by reflexivity.
    assert (Hn : (3 <= List.length five_ticks)%nat) by (vm_compute; lia).
    assert (Hhi : Z.of_nat 3 <= MaxInt64) by (vm_compute; discriminate).
    exact (proj1 (proj2 (proj2 (proj2 (ExportCounter_counts_ticks no_tables exact_fraction)
                                  "myevents" five_ticks
                                  (sample_world "10s" true flaky)
                                  10000000000 3%nat Hon Hparse Hpos Hfree Hn)))
                 Hhi).
Defined.
